(** * stores-api: a shallow embedding of the Express service and its checked properties

    The service is one Express application (index.js) over one SQLite table
    (db.js).  The embedding follows the middleware chain of the source:

      bodyParser  ->  parseIfXml  ->  express-validator chains  ->  route handler

    JavaScript values are an inductive type, the table is a list of rows with
    the AUTOINCREMENT counter, and every handler is a function from the
    storage state to the new storage state and the response that was sent. *)

From Stdlib Require Import ZArith List String Ascii Bool Lia.
From Stdlib Require Import DecimalString Sorted Permutation.
Import ListNotations.

Open Scope string_scope.
Open Scope Z_scope.

Set Warnings "-register-all".

(** ** JavaScript values *)

Module Js.

(** What [JSON.parse] and xml2js deliver: numbers are kept to the
    integer-valued ones, which is what the [id] column needs.  A property
    that is not there ([undefined]) is [None] at the type [option value]. *)
Inductive value : Type :=
| VNull
| VBool (b : bool)
| VNum (n : Z)
| VStr (s : string)
| VArr (items : list value)
| VObj (fields : list (string * value)).

Fixpoint assoc (k : string) (fields : list (string * value)) : option value :=
  match fields with
  | [] => None
  | (k', v) :: rest => if String.eqb k k' then Some v else assoc k rest
  end.

(** [v.k] for the keys the service reads ([store], [id], [name], [address],
    [phone], [email]): only an object can carry them; on a string, a number,
    a boolean or an array the lookup is [undefined]. *)
Definition prop (v : value) (k : string) : option value :=
  match v with
  | VObj fields => assoc k fields
  | _ => None
  end.

(** ToBoolean. *)
Definition truthy (v : option value) : bool :=
  match v with
  | None => false
  | Some VNull => false
  | Some (VBool b) => b
  | Some (VNum n) => negb (n =? 0)
  | Some (VStr s) => negb (String.eqb s "")
  | Some (VArr _) => true
  | Some (VObj _) => true
  end.

Definition isArray (v : option value) : bool :=
  match v with
  | Some (VArr _) => true
  | _ => false
  end.

(** Decimal text of an integer-valued number. *)
Definition dec (n : Z) : string := NilZero.string_of_int (Z.to_int n).

(** The JavaScript number an integer becomes: a double has 53 significant
    bits, so an integer of magnitude up to 2^53 is itself and a larger one
    is rounded to the nearest multiple of the power of two that leaves 53
    bits, ties to the even one.  (The integers of the service are 64-bit
    rowids, far below the largest double.) *)
Definition js_number (n : Z) : Z :=
  let m := Z.abs n in
  if m <=? 2 ^ 53 then n
  else
    let e := Z.log2 m - 52 in
    let q := Z.shiftr m e in
    let rest := m - Z.shiftl q e in
    let half := Z.shiftl 1 (e - 1) in
    let q' :=
      if (half <? rest) || ((rest =? half) && Z.odd q) then q + 1 else q in
    Z.sgn n * Z.shiftl q' e.

(** [String(v)]: arrays join their items with a comma, writing nothing for
    [null]; a plain object is ["[object Object]"]. *)
Fixpoint toStr (v : value) : string :=
  match v with
  | VNull => "null"
  | VBool true => "true"
  | VBool false => "false"
  | VNum n => dec n
  | VStr s => s
  | VArr items =>
      (fix join (l : list value) : string :=
         match l with
         | [] => ""
         | x :: rest =>
             let here := match x with VNull => "" | _ => toStr x end in
             match rest with
             | [] => here
             | _ :: _ => here ++ "," ++ join rest
             end
         end) items
  | VObj _ => "[object Object]"
  end.

(** [s.includes(pat)] *)
Definition includes (s pat : string) : bool :=
  match String.index 0 pat s with
  | Some _ => true
  | None => false
  end.

End Js.
Import Js.

(** ** express-validator: the chains [body(f).notEmpty()] and
    [body(f).optional().notEmpty()] *)

Module Validator.

(** One entry of [errors.array()]. *)
Record verror : Type := mkError
  { path : string;
    msg : string;
    offending : option value }.

(** The library's [toString] helper, applied to each value before a
    standard validator sees it: [""] for [undefined] and [null], the
    value's own text otherwise (an array, also as an item of the field's
    array, is stringified as a whole: its items joined by commas). *)
Definition fieldText (v : option value) : string :=
  match v with
  | None => ""
  | Some VNull => ""
  | Some x => toStr x
  end.

(** validator.js [isEmpty]: the text has length 0. *)
Definition isEmpty (s : string) : bool := String.eqb s "".

(** [.notEmpty().withMessage(m)] on the selected value: an array is checked
    item by item, anything else as one value; each empty text is one
    error. *)
Definition notEmpty (p m : string) (v : option value) : list verror :=
  let values :=
    match v with
    | Some (VArr items) => map Some items
    | _ => [v]
    end in
  flat_map
    (fun x => if isEmpty (fieldText x) then [mkError p m x] else [])
    values.

(** [body(p).notEmpty().withMessage(m)] run on the request body. *)
Definition required (p m : string) (body : value) : list verror :=
  notEmpty p m (prop body p).

(** [body(p).optional().notEmpty().withMessage(m)]: [optional()] skips the
    chain only for [undefined]. *)
Definition optional (p m : string) (body : value) : list verror :=
  match prop body p with
  | None => []
  | Some v => notEmpty p m (Some v)
  end.

End Validator.
Import Validator.

(** ** The XML libraries: js2xmlparser (outbound) and xml2js (inbound) *)

Module Xml.

(** A document as a tree of elements and character data.  The writer never
    emits attributes, so the tree has none. *)
Inductive node : Type :=
| Text (s : string)
| Elem (tag : string) (content : list node).

Section Writer.

(** The text js2xmlparser writes for a [null] value. *)
Variable null_text : string.

Definition stringify (v : value) : string :=
  match v with
  | VNull => null_text
  | _ => toStr v
  end.

(** js2xmlparser's [parseValue] on data whose keys are XML names
    ([xml_name] below): an object adds one child element per key, an array
    repeats the element of its key once per item (arrays inside arrays are
    flattened), anything else is character data.  The library reads the
    keys ["@"] and ["#"] as attributes and text and throws on a key that is
    no XML name; the data this service sends (rows of the table, the
    records [{store: rows}] and [{message: ...}]) has none of these, and
    the function is only meant for such data. *)
Fixpoint parseValue (key : string) (v : value) : list node :=
  match v with
  | VObj fields =>
      (fix members (fs : list (string * value)) : list node :=
         match fs with
         | [] => []
         | (k, x) :: rest =>
             (match x with
              | VArr _ => parseValue k x
              | _ => [Elem k (parseValue k x)]
              end ++ members rest)%list
         end) fields
  | VArr items =>
      (fix each (l : list value) : list node :=
         match l with
         | [] => []
         | x :: rest =>
             (match x with
              | VArr _ => parseValue key x
              | _ => [Elem key (parseValue key x)]
              end ++ each rest)%list
         end) items
  | _ => [Text (stringify v)]
  end.

(** [js2xmlparser.parse(rootName, data)] *)
Definition parse (rootName : string) (data : value) : node :=
  Elem rootName (parseValue rootName data).

End Writer.

(** An element name the writer accepts and the reader returns as it is,
    kept to ASCII: a letter or an underscore, then letters, digits,
    underscores, hyphens and dots. *)
Definition name_start (c : ascii) : bool :=
  let n := nat_of_ascii c in
  ((65 <=? n) && (n <=? 90) || (97 <=? n) && (n <=? 122) || (n =? 95))%nat.

Definition name_char (c : ascii) : bool :=
  let n := nat_of_ascii c in
  (name_start c || (48 <=? n) && (n <=? 57) || (n =? 45) || (n =? 46))%nat.

Fixpoint all_chars (f : ascii -> bool) (s : string) : bool :=
  match s with
  | EmptyString => true
  | String c rest => f c && all_chars f rest
  end.

Definition xml_name (s : string) : bool :=
  match s with
  | EmptyString => false
  | String c rest => name_start c && all_chars name_char rest
  end.

(** A character that stands for itself in character data, kept to ASCII:
    printable, and none of the markup characters [<], [>], [&] and the
    quotes, which the writer escapes. *)
Definition plain_char (c : ascii) : bool :=
  let n := nat_of_ascii c in
  ((32 <=? n) && (n <=? 126)
   && negb ((n =? 60) || (n =? 62) || (n =? 38) || (n =? 34) || (n =? 39)))%nat.

(** xml2js keeps the character data of an element under the key ["_"]. *)
Definition charkey : string := "_".

Definition whitespace (c : ascii) : bool :=
  match nat_of_ascii c with
  | 9%nat | 10%nat | 11%nat | 12%nat | 13%nat | 32%nat => true
  | _ => false
  end.

(** The text matches [/^\s*$/]. *)
Fixpoint blank (s : string) : bool :=
  match s with
  | EmptyString => true
  | String c rest => whitespace c && blank rest
  end.

Fixpoint setField (k : string) (v : value) (obj : list (string * value))
  : list (string * value) :=
  match obj with
  | [] => []
  | (k', old) :: rest =>
      if String.eqb k k' then (k', v) :: rest
      else (k', old) :: setField k v rest
  end.

(** xml2js [assignOrPush] with [explicitArray: false]: the first child of a
    name is stored as it is, a second one turns the entry into an array. *)
Definition assignOrPush (obj : list (string * value)) (key : string)
  (newValue : value) : list (string * value) :=
  match assoc key obj with
  | None => (obj ++ [(key, newValue)])%list
  | Some (VArr items) => setField key (VArr (items ++ [newValue])%list) obj
  | Some old => setField key (VArr [old; newValue]) obj
  end.

(** What the closing tag leaves: the character data alone when there are no
    children, the children alone when the character data is blank, both
    otherwise (the text first, under [charkey]). *)
Definition closeTag (text : string) (obj : list (string * value)) : value :=
  match obj with
  | [] => VStr text
  | _ :: _ => if blank text then VObj obj else VObj ((charkey, VStr text) :: obj)
  end.

(** [new xml2js.Parser({explicitArray: false, explicitRoot: false})] on a
    well-formed document: the value of the root element, its own tag
    dropped.  A child element named like [charkey] collides with the text
    entry; the reader gives no result for such a document. *)
Fixpoint read (n : node) : option value :=
  match n with
  | Text s => Some (VStr s)
  | Elem _ content =>
      (fix children (l : list node) (text : string)
           (obj : list (string * value)) : option value :=
         match l with
         | [] => Some (closeTag text obj)
         | x :: rest =>
             match x with
             | Text s => children rest (text ++ s) obj
             | Elem t _ =>
                 if String.eqb t charkey then None
                 else
                   match read x with
                   | None => None
                   | Some v => children rest text (assignOrPush obj t v)
                   end
             end
         end) content "" []
  end.

End Xml.
Import Xml.

(** ** The storage backend: the table [stores] of db.js *)

Module Db.

(** A column value that may be NULL. *)
Definition cell : Type := option string.

(** One row of
    [CREATE TABLE stores (id INTEGER PRIMARY KEY AUTOINCREMENT,
       name TEXT NOT NULL, address TEXT NOT NULL, phone TEXT, email TEXT,
       created_at DATETIME DEFAULT CURRENT_TIMESTAMP,
       updated_at DATETIME DEFAULT CURRENT_TIMESTAMP)].
    The NOT NULL columns are strings, the nullable ones cells; the two
    timestamps hold the text CURRENT_TIMESTAMP produced
    (['YYYY-MM-DD HH:MM:SS'], ordered as strings). *)
Record row : Type := mkRow
  { id : Z;
    name : string;
    address : string;
    phone : cell;
    email : cell;
    created_at : string;
    updated_at : string }.

(** The table and the largest rowid it ever held (sqlite_sequence). *)
Record table : Type := mkTable
  { rows : list row;
    seq : Z }.

Definition empty : table := mkTable [] 0.

(** The largest rowid: 2^63 - 1. *)
Definition max_rowid : Z := 9223372036854775807.

Section Driver.

(** The text the driver and the TEXT column store for a bound value that is
    neither a string nor null. *)
Variable column_text : value -> string.

(** Binding a JavaScript value to a [?]: [undefined] leaves the parameter
    unbound, which is NULL like [null]; a string is stored as it is. *)
Definition bind (v : option value) : cell :=
  match v with
  | None => None
  | Some VNull => None
  | Some (VStr s) => Some s
  | Some other => Some (column_text other)
  end.

End Driver.

(** [SELECT * FROM stores WHERE id = ?]: the key is [None] when the bound
    number is NaN or not an integer, which equals no rowid. *)
Definition get (t : table) (key : option Z) : option row :=
  match key with
  | None => None
  | Some k => find (fun r => id r =? k) (rows t)
  end.

Fixpoint insert_desc (r : row) (l : list row) : list row :=
  match l with
  | [] => [r]
  | x :: rest => if id x <=? id r then r :: l else x :: insert_desc r rest
  end.

Definition sort_desc (l : list row) : list row :=
  fold_right insert_desc [] l.

(** [SELECT * FROM stores ORDER BY id DESC] *)
Definition all (t : table) : list row := sort_desc (rows t).

Definition max_id (l : list row) : Z :=
  fold_right (fun r m => Z.max (id r) m) 0 l.

(** [INSERT INTO stores (name, address, phone, email) VALUES (?, ?, ?, ?)]:
    NOT NULL rejects a NULL name or address; AUTOINCREMENT takes the rowid
    after the largest one ever used and fails when that was the last one;
    both timestamps default to the same CURRENT_TIMESTAMP.  The result is
    the new table and [this.lastID], or [None] for the error. *)
Definition insert (now : string) (n a p e : cell) (t : table)
  : option (table * Z) :=
  match n, a with
  | Some n', Some a' =>
      let top := Z.max (seq t) (max_id (rows t)) in
      if max_rowid <=? top then None
      else
        let newId := top + 1 in
        Some (mkTable (rows t ++ [mkRow newId n' a' p e now now])%list newId,
              newId)
  | _, _ => None
  end.

Definition matches (key : option Z) (r : row) : bool :=
  match key with
  | None => false
  | Some k => id r =? k
  end.

(** [UPDATE stores SET name = ?, address = ?, phone = ?, email = ?,
     updated_at = CURRENT_TIMESTAMP WHERE id = ?]: NOT NULL rejects the
    statement when a matching row would get a NULL name or address. *)
Definition update (now : string) (n a p e : cell) (key : option Z) (t : table)
  : option table :=
  if existsb (matches key) (rows t) then
    match n, a with
    | Some n', Some a' =>
        Some (mkTable
                (map (fun r =>
                        if matches key r
                        then mkRow (id r) n' a' p e (created_at r) now
                        else r) (rows t))
                (seq t))
    | _, _ => None
    end
  else Some t.

(** [DELETE FROM stores WHERE id = ?] *)
Definition delete (key : option Z) (t : table) : table :=
  mkTable (filter (fun r => negb (matches key r)) (rows t)) (seq t).

Definition cell_value (c : cell) : value :=
  match c with
  | None => VNull
  | Some s => VStr s
  end.

(** A row as the driver hands it to the callback of [db.get] / [db.all]:
    the 64-bit rowid arrives as a JavaScript number. *)
Definition row_value (r : row) : value :=
  VObj [("id", VNum (js_number (id r)));
        ("name", VStr (name r));
        ("address", VStr (address r));
        ("phone", cell_value (phone r));
        ("email", cell_value (email r));
        ("created_at", VStr (created_at r));
        ("updated_at", VStr (updated_at r))].

End Db.
Import Db.

(** ** The application: index.js *)

Module App.

(** [req.body] as the two body parsers leave it.  For an XML content type
    the body is text, given here by what [parser.parseStringPromise] makes of
    it; for any other content type it is the structure [bodyParser.json]
    delivered ([{}] when there was nothing to parse). *)
Inductive xml_text : Type :=
| XmlBlank
| XmlMalformed (details : string)
| XmlParsed (result : value).

Inductive wire_body : Type :=
| Structured (v : value)
| XmlText (x : xml_text).

Inductive route : Type :=
| ListStores
| CreateStore
| GetStore
| UpdateStore
| DeleteStore.

(** A request: [id_param] is [Number(req.params.id)], a JavaScript number
    ([None] for NaN and for a number that is not an integer), [accept] is
    [req.headers.accept || '']. *)
Record request : Type := mkRequest
  { target : route;
    id_param : option Z;
    accept : string;
    wire : wire_body }.

(** What the storage backend does while the request is served: the reading
    of CURRENT_TIMESTAMP and, for each storage call of a handler, whether it
    reports an error (I/O, lock) of its own. *)
Record env : Type := mkEnv
  { clock : string;
    lookup_fails : bool;
    write_fails : bool;
    readback_fails : bool }.

Definition healthy (now : string) : env := mkEnv now false false false.

(** The body of a response: [res.json(data)], [res.json({errors: [...]})]
    or [res.type('application/xml').send(document)]. *)
Inductive sent : Type :=
| JsonBody (data : option value)
| ErrorsBody (errors : list verror)
| XmlBody (doc : node).

Record response : Type := mkResponse
  { status : Z;
    content : sent }.

(** [res.status(code).json({error: text})] *)
Definition error (code : Z) (text : string) : response :=
  mkResponse code (JsonBody (Some (VObj [("error", VStr text)]))).

(** [parseIfXml]: the canonical record, or the 400 response of the
    [catch]. *)
Definition parseIfXml (b : wire_body) : response + value :=
  match b with
  | XmlText XmlBlank => inr (VObj [])
  | XmlText (XmlParsed result) => inr result
  | XmlText (XmlMalformed details) =>
      inl (mkResponse 400
             (JsonBody (Some (VObj [("error", VStr "Invalid XML payload");
                                    ("details", VStr details)]))))
  | Structured v => inr v
  end.

Definition wants_xml (accept : string) : bool :=
  includes accept "application/xml" || includes accept "text/xml".

(** [Array.isArray(data) ? 'stores' : (data && data.id ? 'store' : 'response')] *)
Definition rootName (data : option value) : string :=
  if isArray data then "stores"
  else
    match data with
    | Some d => if truthy (prop d "id") then "store" else "response"
    | None => "response"
    end.

(** [if (payload && payload.store) payload = payload.store] *)
Definition unwrap (b : value) : value :=
  match prop b "store" with
  | Some inner => if truthy (Some inner) then inner else b
  | None => b
  end.

(** The default of [const { ..., phone = null, email = null } = payload]. *)
Definition or_null (v : option value) : option value :=
  match v with
  | None => Some VNull
  | Some x => Some x
  end.

(** The chains in front of the two handlers.  They are middleware: they run
    on [req.body] as [parseIfXml] left it, before the handler body. *)
Definition create_chain (b : value) : list verror :=
  (required "name" "name is required" b
   ++ required "address" "address is required" b)%list.

Definition update_chain (b : value) : list verror :=
  (optional "name" "name cannot be empty" b
   ++ optional "address" "address cannot be empty" b)%list.

Section Handlers.

Variable column_text : value -> string.
Variable null_text : string.

(** [sendResponse(req, res, data, status)] *)
Definition sendResponse (accept : string) (data : option value) (code : Z)
  : response :=
  if wants_xml accept then
    mkResponse code
      (XmlBody (Xml.parse null_text (rootName data)
                  (match data with Some d => d | None => VObj [] end)))
  else mkResponse code (JsonBody data).

(** [app.get('/stores')] *)
Definition list_stores (e : env) (accept : string) (t : table)
  : table * option response :=
  if lookup_fails e then (t, Some (error 500 "Database error"))
  else
    (t, Some (sendResponse accept
                (Some (VObj [("store", VArr (map row_value (Db.all t)))]))
                200)).

(** [app.post('/stores')]: [errors] is what the chain recorded before the
    handler replaced [req.body] by the unwrapped payload.  (A [null] payload,
    which the destructuring would throw on, never gets there: the chain has
    recorded errors for it.)  [this.lastID] is a JavaScript number, and it
    is that number the row is read back by. *)
Definition create_store (e : env) (accept : string) (b : value) (t : table)
  : table * option response :=
  let errors := create_chain b in
  let payload := unwrap b in
  match errors with
  | _ :: _ => (t, Some (mkResponse 400 (ErrorsBody errors)))
  | [] =>
      let n := prop payload "name" in
      let a := prop payload "address" in
      let p := or_null (prop payload "phone") in
      let m := or_null (prop payload "email") in
      let ran :=
        if write_fails e then None
        else insert (clock e) (bind column_text n) (bind column_text a)
               (bind column_text p) (bind column_text m) t in
      match ran with
      | None => (t, Some (error 500 "Failed to create store"))
      | Some (t', lastID) =>
          let newId := js_number lastID in
          if readback_fails e then (t', Some (error 500 "DB fetch failed"))
          else
            (t', Some (sendResponse accept
                         (option_map row_value (get t' (Some newId))) 201))
      end
  end.

(** [app.get('/stores/:id')] *)
Definition get_store (e : env) (accept : string) (key : option Z) (t : table)
  : table * option response :=
  if lookup_fails e then (t, Some (error 500 "Database error"))
  else
    match get t key with
    | None => (t, Some (error 404 "Store not found"))
    | Some r => (t, Some (sendResponse accept (Some (row_value r)) 200))
    end.

(** [payload.f !== undefined ? payload.f : existing.f], as bound to the
    statement. *)
Definition merged (payload : value) (f : string) (existing : cell) : cell :=
  match prop payload f with
  | Some v => bind column_text (Some v)
  | None => existing
  end.

(** [app.put('/stores/:id')].  Reading [payload.name] of a [null] payload
    throws inside the callback: no response is sent ([None]). *)
Definition update_store (e : env) (accept : string) (key : option Z)
  (b : value) (t : table) : table * option response :=
  let errors := update_chain b in
  let payload := unwrap b in
  if lookup_fails e then (t, Some (error 500 "DB error"))
  else
    match get t key with
    | None => (t, Some (error 404 "Store not found"))
    | Some existing =>
        match errors with
        | _ :: _ => (t, Some (mkResponse 400 (ErrorsBody errors)))
        | [] =>
            match payload with
            | VNull => (t, None)
            | _ =>
                let n := merged payload "name" (Some (name existing)) in
                let a := merged payload "address" (Some (address existing)) in
                let p := merged payload "phone" (phone existing) in
                let m := merged payload "email" (email existing) in
                let ran :=
                  if write_fails e then None
                  else update (clock e) n a p m key t in
                match ran with
                | None => (t, Some (error 500 "Update failed"))
                | Some t' =>
                    if readback_fails e
                    then (t', Some (error 500 "Fetch after update failed"))
                    else
                      (t', Some (sendResponse accept
                                   (option_map row_value (get t' key)) 200))
                end
            end
        end
    end.

(** [app.delete('/stores/:id')] *)
Definition delete_store (e : env) (accept : string) (key : option Z)
  (t : table) : table * option response :=
  if lookup_fails e then (t, Some (error 500 "DB error"))
  else
    match get t key with
    | None => (t, Some (error 404 "Store not found"))
    | Some _ =>
        if write_fails e then (t, Some (error 500 "Delete failed"))
        else
          (Db.delete key t,
           Some (sendResponse accept
                   (Some (VObj [("message", VStr "Store deleted")])) 200))
    end.

(** One request through the application: [parseIfXml] is registered with
    [app.use] and runs in front of every route. *)
Definition handle (e : env) (req : request) (t : table)
  : table * option response :=
  match parseIfXml (wire req) with
  | inl refused => (t, Some refused)
  | inr b =>
      match target req with
      | ListStores => list_stores e (accept req) t
      | CreateStore => create_store e (accept req) b t
      | GetStore => get_store e (accept req) (id_param req) t
      | UpdateStore => update_store e (accept req) (id_param req) b t
      | DeleteStore => delete_store e (accept req) (id_param req) t
      end
  end.

(** A sequence of requests, each with the environment it met. *)
Fixpoint run (steps : list (env * request)) (t : table) : table :=
  match steps with
  | [] => t
  | (e, req) :: rest => run rest (fst (handle e req t))
  end.

End Handlers.

End App.
Import App.

(** ** Derived notions used by the properties *)

(** What comes back when a response body is sent in again.  [JSON.parse]
    of what [res.json] wrote is the structure that was written (strings,
    integers, null, arrays and objects survive JSON unchanged); an XML body
    is read by xml2js and normalized by [parseIfXml]. *)
Definition json_read (p : sent) : option value :=
  match p with
  | JsonBody data => data
  | _ => None
  end.

Definition xml_read (p : sent) : option value :=
  match p with
  | XmlBody doc =>
      match Xml.read doc with
      | Some result =>
          match parseIfXml (XmlText (XmlParsed result)) with
          | inr record => Some record
          | inl _ => None
          end
      | None => None
      end
  | _ => None
  end.

(** A Store row sent with [Accept: application/xml] and normalized back,
    and the same row sent as JSON and parsed back. *)
Definition xml_round_trip (null_text : string) (r : row) : option value :=
  xml_read
    (content (sendResponse null_text "application/xml" (Some (row_value r)) 200)).

Definition json_round_trip (null_text : string) (r : row) : option value :=
  json_read
    (content (sendResponse null_text "application/json" (Some (row_value r)) 200)).

(** Every field of a record replaced by the text the XML writer gives it. *)
Definition as_text (null_text : string) (v : value) : value :=
  match v with
  | VObj fields =>
      VObj (map (fun kv => (fst kv, VStr (stringify null_text (snd kv)))) fields)
  | other => other
  end.

Definition is_error (r : response) : bool := 400 <=? status r.

(** [t'] is [t] with one more row, which a lookup by its id finds. *)
Definition row_added (t t' : table) : Prop :=
  exists r,
    rows t' = (rows t ++ [r])%list /\ get t' (Some (id r)) = Some r.

(** [t'] is [t] with the row under [key] rewritten and no other lookup
    changed. *)
Definition row_rewritten (key : option Z) (t t' : table) : Prop :=
  exists old new,
    get t key = Some old /\ get t' key = Some new /\ id new = id old /\
    forall other, other <> key -> get t' other = get t other.

Definition is_xml (p : sent) : bool :=
  match p with
  | XmlBody _ => true
  | _ => false
  end.

(** The root tag of an XML body. *)
Definition root_tag (p : sent) : option string :=
  match p with
  | XmlBody (Elem tag _) => Some tag
  | _ => None
  end.

(** The merge rule of the update for one column: absent keeps the stored
    cell, present (whatever the value) stores what the driver binds. *)
Definition field_merged (column_text : value -> string) (payload : value)
  (f : string) (before after : cell) : Prop :=
  (prop payload f = None -> after = before) /\
  (forall v, prop payload f = Some v -> after = bind column_text (Some v)).

(** [ORDER BY id DESC] *)
Definition id_desc (a b : row) : Prop := id b <= id a.

(** An integer that is a JavaScript number as it is (every integer up to
    2^53 in magnitude is). *)
Definition exact_number (n : Z) : Prop := js_number n = n.

(** The table can still take a new rowid. *)
Definition has_room (t : table) : Prop :=
  Z.max (seq t) (max_id (rows t)) < max_rowid.

Definition next_id (t : table) : Z := Z.max (seq t) (max_id (rows t)) + 1.

(** A text conversion to run the examples with: a boolean is stored as 1
    or 0, an array or object as ["[object Object]"]. *)
Definition sample_text (v : value) : string :=
  match v with
  | VBool true => "1"
  | VBool false => "0"
  | VArr _ => "[object Object]"
  | other => toStr other
  end.

Definition acme : value :=
  VObj [("name", VStr "Acme"); ("address", VStr "1 Main St")].

Definition post (accept : string) (b : value) : request :=
  mkRequest CreateStore None accept (Structured b).

Definition put (k : Z) (accept : string) (b : wire_body) : request :=
  mkRequest UpdateStore (Some k) accept b.

Definition fetch (k : Z) (accept : string) : request :=
  mkRequest GetStore (Some k) accept (Structured (VObj [])).

Definition midnight : string := "2024-01-01 00:00:00".

Definition later : string := "2024-01-01 00:00:05".

(** The table after [post acme] at [midnight] on the empty table. *)
Definition one_store : table :=
  mkTable [mkRow 1 "Acme" "1 Main St" None None midnight midnight] 1.

Definition with_phone : table :=
  mkTable
    [mkRow 1 "Acme" "1 Main St" (Some "555-1234") None midnight midnight] 1.

Definition two_stores : table :=
  mkTable [mkRow 1 "Acme" "1 Main St" None None midnight midnight;
           mkRow 2 "Bolt" "2 Side St" (Some "555-1234") None later later] 2.

Definition list_xml : request :=
  mkRequest ListStores None "application/xml" (Structured (VObj [])).

Definition set_phone : value := VObj [("phone", VStr "555-1234")].

Definition clear_phone : value := VObj [("phone", VNull)].

Definition empty_name : value := VObj [("name", VStr "")].

Definition readback_down (now : string) : env := mkEnv now false false true.

(** ** Notions used by the further properties *)

(** The keys of the table: no rowid twice, every rowid positive and not
    above the AUTOINCREMENT counter. *)
Definition well_keyed (t : table) : Prop :=
  NoDup (map id (rows t)) /\
  Forall (fun r => 1 <= id r <= seq t) (rows t).

(** No stored row has an empty name or address. *)
Definition names_filled (t : table) : Prop :=
  Forall (fun r => name r <> "" /\ address r <> "") (rows t).

(** A field that is absent, null or a string. *)
Definition textual (v : option value) : Prop :=
  match v with
  | None => True
  | Some VNull => True
  | Some (VStr _) => True
  | Some _ => False
  end.

(** No row was updated before it was created. *)
Definition stamped (t : table) : Prop :=
  Forall (fun r => String.leb (created_at r) (updated_at r) = true) (rows t).

(** The reading of CURRENT_TIMESTAMP is not before the creation of any
    stored row. *)
Definition clock_not_before (e : env) (t : table) : Prop :=
  Forall (fun r => String.leb (created_at r) (clock e) = true) (rows t).

(** A lookup by the rowid [k] finds a row. *)
Definition found (t : table) (k : Z) : Prop :=
  exists r, get t (Some k) = Some r.

(** The statuses the handlers send. *)
Definition known_status (code : Z) : Prop :=
  code = 200 \/ code = 201 \/ code = 400 \/ code = 404 \/ code = 500.

(** A record whose fields are all strings. *)
Definition record_of (l : list (string * string)) : value :=
  VObj (map (fun kv => (fst kv, VStr (snd kv))) l).

(** A Store row with every field as the XML writer's text. *)
Definition row_text (null_text : string) (r : row) : value :=
  as_text null_text (row_value r).

(** What xml2js makes of the children named [store] of a list document:
    nothing but the empty text for no child, the child itself for one, an
    array from two on. *)
Definition listed (items : list value) : value :=
  match items with
  | [] => VStr ""
  | [one] => VObj [("store", one)]
  | _ :: _ :: _ => VObj [("store", VArr items)]
  end.

(** The payload [{store: rows}] of the list handler. *)
Definition list_data (l : list row) : value :=
  VObj [("store", VArr (map row_value l))].

(** A field the [notEmpty] chain refuses when it is not an array: absent,
    null or the empty string. *)
Definition unfilled (v : option value) : bool :=
  match v with
  | None => true
  | Some VNull => true
  | Some (VStr s) => String.eqb s ""
  | Some _ => false
  end.

(** The loop of [Xml.read] over the content of an element, with the text
    and the children collected so far. *)
Fixpoint read_children (l : list node) (text : string)
  (obj : list (string * value)) : option value :=
  match l with
  | [] => Some (closeTag text obj)
  | x :: rest =>
      match x with
      | Text s => read_children rest (text ++ s) obj
      | Elem t _ =>
          if String.eqb t charkey then None
          else
            match Xml.read x with
            | None => None
            | Some v => read_children rest text (assignOrPush obj t v)
            end
      end
  end.

(** A string field the XML libraries carry as it is: the key is an XML
    name, the value is made of plain characters and is not a run of
    spaces. *)
Definition plain_field (kv : string * string) : Prop :=
  xml_name (fst kv) = true /\
  all_chars plain_char (snd kv) = true /\
  (blank (snd kv) = true -> snd kv = "").

(** The element js2xmlparser writes for one string field. *)
Definition text_element (kv : string * string) : node :=
  Elem (fst kv) [Text (snd kv)].

Definition remove (k : Z) (accept : string) : request :=
  mkRequest DeleteStore (Some k) accept (Structured (VObj [])).

Definition no_name_inside : value :=
  VObj [("name", VStr "A"); ("address", VStr "B");
        ("store", VObj [("address", VStr "C")])].

(** * Properties *)

(** ** Storage lemmas *)

Lemma find_above (l : list row) (k : Z) :
  max_id l < k -> find (fun r => id r =? k) l = None.
Proof.
  induction l as [|x l IH]; simpl; intros Hk; [reflexivity|].
  destruct (Z.eqb_spec (id x) k); [lia|]. apply IH. lia.
Qed.

Lemma find_snoc (f : row -> bool) (l : list row) (r : row) :
  find f l = None -> find f (l ++ [r]) = if f r then Some r else None.
Proof.
  induction l as [|x l IH]; simpl; [reflexivity|].
  destruct (f x); [discriminate|]. exact IH.
Qed.

Lemma insert_inv now n a p e t t' k :
  insert now n a p e t = Some (t', k) ->
  exists n' a',
    n = Some n' /\ a = Some a' /\ has_room t /\ k = next_id t /\
    t' = mkTable (rows t ++ [mkRow k n' a' p e now now]) k.
Proof.
  unfold insert, has_room, next_id.
  destruct n as [n'|]; [|discriminate].
  destruct a as [a'|]; [|discriminate].
  destruct (Z.leb_spec max_rowid (Z.max (seq t) (max_id (rows t))));
    [discriminate|].
  intros Heq; inversion Heq; subst. exists n', a'. repeat split; auto.
Qed.


Lemma get_inserted now n' a' p e t :
  get (mkTable (rows t ++ [mkRow (next_id t) n' a' p e now now]) (next_id t))
      (Some (next_id t))
  = Some (mkRow (next_id t) n' a' p e now now).
Proof.
  unfold get; simpl. rewrite find_snoc.
  - simpl. now rewrite Z.eqb_refl.
  - apply find_above. unfold next_id. lia.
Qed.

Lemma get_matches t key r : get t key = Some r -> matches key r = true.
Proof.
  destruct key as [k|]; simpl; [|discriminate].
  intros H. apply find_some in H. tauto.
Qed.

Lemma get_exists t key r :
  get t key = Some r -> existsb (matches key) (rows t) = true.
Proof.
  intros H. apply existsb_exists. exists r. split.
  - destruct key as [k|]; simpl in H; [|discriminate].
    apply find_some in H. tauto.
  - eapply get_matches; eauto.
Qed.

Lemma update_inv now n a p e key t t' old :
  get t key = Some old ->
  update now n a p e key t = Some t' ->
  exists n' a',
    n = Some n' /\ a = Some a' /\
    get t' key = Some (mkRow (id old) n' a' p e (created_at old) now) /\
    seq t' = seq t /\
    forall other, other <> key -> get t' other = get t other.
Proof.
  intros Hget. unfold update. rewrite (get_exists _ _ _ Hget).
  destruct n as [n'|]; [|discriminate].
  destruct a as [a'|]; [|discriminate].
  intros H; inversion H; subst; clear H. exists n', a'.
  repeat split; auto.
  - destruct key as [k|]; simpl in *; [|discriminate].
    induction (rows t) as [|x l IH]; simpl in *; [discriminate|].
    destruct (Z.eqb_spec (id x) k) as [Heq|Hne]; simpl.
    + rewrite Heq, Z.eqb_refl. inversion Hget; subst. reflexivity.
    + destruct (Z.eqb_spec (id x) k); [contradiction|]. auto.
  - intros [j|] Hne; simpl; [|reflexivity].
    induction (rows t) as [|x l IH]; simpl; [reflexivity|].
    destruct (matches key x) eqn:Hm; simpl.
    + destruct key as [k|]; simpl in Hm; [|discriminate].
      apply Z.eqb_eq in Hm.
      destruct (Z.eqb_spec (id x) j); [congruence|]. exact IH.
    + destruct (id x =? j); [reflexivity|exact IH].
Qed.

(** ** Sorting lemmas for [ORDER BY id DESC] *)

Lemma insert_desc_perm (r : row) (l : list row) :
  Permutation (insert_desc r l) (r :: l).
Proof.
  induction l as [|x l IH]; simpl; [reflexivity|].
  destruct (id x <=? id r); [reflexivity|].
  rewrite IH. apply perm_swap.
Qed.

Lemma sort_desc_perm (l : list row) : Permutation (sort_desc l) l.
Proof.
  induction l as [|x l IH]; simpl; [reflexivity|].
  rewrite insert_desc_perm. now constructor.
Qed.

Lemma insert_desc_hd (r a : row) (l : list row) :
  id_desc a r -> HdRel id_desc a l -> HdRel id_desc a (insert_desc r l).
Proof.
  intros Har Hl. destruct l as [|x l]; simpl; [now constructor|].
  destruct (id x <=? id r); constructor; auto.
  now inversion Hl.
Qed.

Lemma insert_desc_sorted (r : row) (l : list row) :
  Sorted id_desc l -> Sorted id_desc (insert_desc r l).
Proof.
  induction l as [|x l IH]; simpl; intros Hs.
  - repeat constructor.
  - destruct (Z.leb_spec (id x) (id r)).
    + constructor; [exact Hs|]. constructor. exact H.
    + inversion Hs; subst. constructor; [auto|].
      apply insert_desc_hd; [unfold id_desc; lia|assumption].
Qed.

Lemma sort_desc_sorted (l : list row) : Sorted id_desc (sort_desc l).
Proof.
  induction l as [|x l IH]; simpl; [constructor|].
  now apply insert_desc_sorted.
Qed.

(** ** Handler lemmas *)

Section HandlerFacts.

Variable column_text : value -> string.
Variable null_text : string.

Lemma sendResponse_status accept data code :
  status (sendResponse null_text accept data code) = code.
Proof. unfold sendResponse. now destruct (wants_xml accept). Qed.


Lemma merged_spec payload f before :
  field_merged column_text payload f before
    (merged column_text payload f before).
Proof.
  unfold field_merged, merged. split.
  - now intros ->.
  - now intros v ->.
Qed.

(** A 200 from the update handler: the row was there, the chain had
    recorded nothing, the statement ran, and the row read back is the
    merge of the payload into the old row. *)
Lemma update_store_200 e accept key b t t' resp :
  update_store column_text null_text e accept key b t = (t', Some resp) ->
  status resp = 200 ->
  exists old n' a',
    let p := unwrap b in
    let after :=
      mkRow (id old) n' a'
        (merged column_text p "phone" (phone old))
        (merged column_text p "email" (email old))
        (created_at old) (clock e) in
    get t key = Some old /\
    update_chain b = [] /\
    merged column_text p "name" (Some (name old)) = Some n' /\
    merged column_text p "address" (Some (address old)) = Some a' /\
    get t' key = Some after /\
    (forall other, other <> key -> get t' other = get t other) /\
    resp = sendResponse null_text accept (Some (row_value after)) 200.
Proof.
  unfold update_store.
  destruct (lookup_fails e); [intros H; now inversion H|].
  destruct (get t key) as [old|] eqn:Hget; [|intros H; now inversion H].
  destruct (update_chain b) as [|err errs] eqn:Hchain;
    [|intros H; now inversion H].
  destruct (unwrap b) eqn:Hp; try (intros H; discriminate H);
  (destruct (write_fails e); [intros H; now inversion H|]);
  match goal with
  | |- context [update ?now ?n ?a ?p ?m key t] =>
      destruct (update now n a p m key t) as [t1|] eqn:Hup;
      [|intros H; now inversion H]
  end;
  (destruct (readback_fails e); [intros H; now inversion H|]);
  destruct (update_inv _ _ _ _ _ _ _ _ _ Hget Hup)
    as (n' & a' & Hn & Ha & Hnew & _ & Hframe);
  intros H _; inversion H; subst; clear H;
  exists old, n', a'; simpl; rewrite Hnew; repeat split; auto.
Qed.


(** An update of a stored row whose chain recorded nothing and whose
    unwrapped payload has a null name or address: the statement is refused
    by NOT NULL. *)
Lemma update_store_null e accept key b t old :
  lookup_fails e = false ->
  get t key = Some old ->
  update_chain b = [] ->
  prop (unwrap b) "name" = Some VNull \/
  prop (unwrap b) "address" = Some VNull ->
  update_store column_text null_text e accept key b t
  = (t, Some (error 500 "Update failed")).
Proof.
  intros Hlook Hget Hchain Hnull. unfold update_store.
  rewrite Hlook, Hget, Hchain.
  assert (Hup : forall p m,
             update (clock e)
               (merged column_text (unwrap b) "name" (Some (name old)))
               (merged column_text (unwrap b) "address" (Some (address old)))
               p m key t = None).
  { intros p m. unfold update. rewrite (get_exists _ _ _ Hget).
    unfold merged. destruct Hnull as [Hf|Hf]; rewrite Hf; simpl.
    - reflexivity.
    - match goal with
      | |- match ?n with Some _ => _ | None => _ end = _ =>
          destruct n; reflexivity
      end. }
  destruct (unwrap b) eqn:Hp;
    try (destruct Hnull as [Hf|Hf]; discriminate Hf);
    destruct (write_fails e); try reflexivity; now rewrite Hup.
Qed.

(** An error status from any handler, with the table it left. *)
Lemma handle_error e req t t' resp :
  handle column_text null_text e req t = (t', Some resp) ->
  is_error resp = true ->
  t' = t \/
  (readback_fails e = true /\
   ((resp = error 500 "DB fetch failed" /\ row_added t t') \/
    (resp = error 500 "Fetch after update failed" /\
     row_rewritten (id_param req) t t'))).
Proof.
  unfold handle.
  destruct (parseIfXml (wire req)) as [refused|b];
    [intros H; inversion H; now left|].
  destruct (target req).
  - unfold list_stores. destruct (lookup_fails e); intros H; inversion H; now left.
  - unfold create_store.
    destruct (create_chain b); [|intros H; inversion H; now left].
    destruct (write_fails e); [intros H; inversion H; now left|].
    match goal with
    | |- context [insert ?now ?n ?a ?p ?m t] =>
        destruct (insert now n a p m t) as [[t1 k]|] eqn:Hins;
        [|intros H; inversion H; now left]
    end.
    destruct (readback_fails e) eqn:Hrb.
    + intros H _; inversion H; subst. right. split; [reflexivity|]. left.
      split; [reflexivity|].
      destruct (insert_inv _ _ _ _ _ _ _ _ Hins)
        as (n' & a' & _ & _ & _ & Hk & Ht).
      subst. eexists. split; [reflexivity|]. apply get_inserted.
    + intros H Herr; inversion H; subst. exfalso.
      unfold is_error in Herr. rewrite sendResponse_status in Herr.
      discriminate.
  - unfold get_store. destruct (lookup_fails e); [intros H; inversion H; now left|].
    destruct (get t (id_param req)); intros H; inversion H; now left.
  - unfold update_store.
    destruct (lookup_fails e); [intros H; inversion H; now left|].
    destruct (get t (id_param req)) as [old|] eqn:Hget;
      [|intros H; inversion H; now left].
    destruct (update_chain b); [|intros H; inversion H; now left].
    destruct (unwrap b); try (intros H; discriminate H);
    (destruct (write_fails e); [intros H; inversion H; now left|]);
    match goal with
    | |- context [update ?now ?n ?a ?p ?m ?k t] =>
        destruct (update now n a p m k t) as [t1|] eqn:Hup;
        [|intros H; inversion H; now left]
    end;
    (destruct (readback_fails e) eqn:Hrb;
     [ intros H _; inversion H; subst; right; split; [reflexivity|]; right;
       split; [reflexivity|];
       destruct (update_inv _ _ _ _ _ _ _ _ _ Hget Hup)
         as (n' & a' & _ & _ & Hnew & _ & Hframe);
       exists old; eexists; split; [exact Hget|]; split; [exact Hnew|];
       split; [reflexivity|exact Hframe]
     | intros H Herr; inversion H; subst; exfalso;
       unfold is_error in Herr; rewrite sendResponse_status in Herr;
       discriminate ]).
  - unfold delete_store.
    destruct (lookup_fails e); [intros H; inversion H; now left|].
    destruct (get t (id_param req)); [|intros H; inversion H; now left].
    destruct (write_fails e); [intros H; inversion H; now left|].
    intros H Herr; inversion H; subst. exfalso.
    unfold is_error in Herr. rewrite sendResponse_status in Herr.
    discriminate.
Qed.

End HandlerFacts.

(** ** The checked claims *)

Section Claims.

Variable column_text : value -> string.
Variable null_text : string.

(** C1: validation is to run on the payload unwrapped from a [store]
    envelope.  The code runs the chains on the record as [parseIfXml] left
    it.  A create request whose record is [{store: inner}] is answered 400
    with "name is required" and "address is required" whatever [inner]
    holds, non-empty name and address included, and nothing is stored; an
    update whose record is [{store: {name: ""}}] passes the chain and stores
    the empty name. *)
Theorem store_envelope_is_validated_raw e accept inner t :
  App.handle column_text null_text e (post accept (VObj [("store", inner)])) t
  = (t, Some (mkResponse 400
                (ErrorsBody [mkError "name" "name is required" None;
                             mkError "address" "address is required" None])))
  /\
  App.handle column_text null_text (healthy later)
    (put 1 accept (Structured (VObj [("store", empty_name)]))) one_store
  = (mkTable [mkRow 1 "" "1 Main St" None None midnight later] 1,
     Some (sendResponse null_text accept
             (Some (row_value (mkRow 1 "" "1 Main St" None None midnight later)))
             200)).
Proof. split; reflexivity. Qed.

(** C2: no persisted row is to have an empty name or address.  A create
    request that carries a valid name and address at the top and empty ones
    inside a [store] field passes the chain, and the row with the empty name
    and address is stored and reported with 201. *)
Theorem create_persists_empty_name_from_envelope now accept :
  App.handle column_text null_text (healthy now)
    (post accept
       (VObj [("name", VStr "A"); ("address", VStr "B");
              ("store", VObj [("name", VStr ""); ("address", VStr "")])]))
    empty
  = (mkTable [mkRow 1 "" "" None None now now] 1,
     Some (sendResponse null_text accept
             (Some (row_value (mkRow 1 "" "" None None now now))) 201)).
Proof. reflexivity. Qed.

(** C3 (as amended): a Store row sent as JSON is read back as it was; sent
    as XML and normalized back, every field comes back as the text the
    writer gave it.  So the string fields agree with the JSON round trip,
    [id] comes back as its decimal string and a null field as a string. *)
Theorem xml_round_trip_is_text (r : row) :
  json_round_trip null_text r = Some (row_value r) /\
  xml_round_trip null_text r
  = option_map (as_text null_text) (json_round_trip null_text r) /\
  (forall v f s,
     xml_round_trip null_text r = Some v ->
     prop (row_value r) f = Some (VStr s) -> prop v f = Some (VStr s)) /\
  (forall v,
     xml_round_trip null_text r = Some v ->
     prop v "id" = Some (VStr (dec (js_number (id r))))).
Proof.
  assert (Hx : xml_round_trip null_text r
               = Some (as_text null_text (row_value r))).
  { destruct r as [i n a p m c u]. unfold xml_round_trip, sendResponse.
    change (wants_xml "application/xml") with true. cbv iota.
    unfold xml_read, content, Xml.parse.
    destruct p, m; reflexivity. }
  repeat split.
  - exact Hx.
  - intros v f s Hv. rewrite Hx in Hv. inversion Hv; subst; clear Hv.
    destruct r as [i n a p m c u]. unfold row_value, as_text, prop. simpl.
    repeat match goal with
           | |- context [String.eqb f ?k] => destruct (String.eqb f k)
           end;
      try discriminate; try (intros H; exact H);
      destruct p; destruct m; simpl; intros H; inversion H; reflexivity.
  - intros v Hv. rewrite Hx in Hv. inversion Hv; subst. reflexivity.
Qed.

(** C4: the list is to be sent under the root element "stores".  The
    handler sends the rows, sorted by id descending, inside a record
    [{store: rows}]; that record is not an array and has no [id], so with an
    XML Accept header the root element is "response". *)
Theorem list_stores_xml_root_is_response e req b t :
  target req = ListStores ->
  parseIfXml (wire req) = inr b ->
  lookup_fails e = false ->
  wants_xml (accept req) = true ->
  exists resp,
    App.handle column_text null_text e req t = (t, Some resp) /\
    status resp = 200 /\
    content resp
    = XmlBody (Xml.parse null_text "response"
                 (VObj [("store", VArr (map row_value (Db.all t)))])) /\
    root_tag (content resp) = Some "response" /\
    Sorted id_desc (Db.all t) /\
    Permutation (Db.all t) (rows t).
Proof.
  intros Hroute Hbody Hlook Hxml.
  unfold App.handle, list_stores, sendResponse.
  rewrite Hbody, Hroute, Hlook, Hxml.
  eexists. split; [reflexivity|]. simpl.
  repeat split.
  - apply sort_desc_sorted.
  - apply sort_desc_perm.
Qed.

(** C5 (as amended): when create or update answers with an error status,
    the table is as it was, unless the error is that of the SELECT that
    reads the row back after the write: then the answer is 500 "DB fetch
    failed" with the new row in the table, or 500 "Fetch after update
    failed" with the row rewritten. *)
Theorem write_error_leaves_table e req t t' resp :
  target req = CreateStore \/ target req = UpdateStore ->
  App.handle column_text null_text e req t = (t', Some resp) ->
  is_error resp = true ->
  t' = t \/
  (readback_fails e = true /\
   ((resp = error 500 "DB fetch failed" /\ row_added t t') \/
    (resp = error 500 "Fetch after update failed" /\
     row_rewritten (id_param req) t t'))).
Proof. intros _. apply handle_error. Qed.

(** C6 (as amended): a Get-by-id for an id that matches no row is answered
    404 with the JSON body [{"error": "Store not found"}] whatever the
    Accept header asks for. *)
Theorem get_missing_is_json_404 e req b t :
  target req = GetStore ->
  parseIfXml (wire req) = inr b ->
  lookup_fails e = false ->
  get t (id_param req) = None ->
  App.handle column_text null_text e req t
  = (t, Some (mkResponse 404
                (JsonBody (Some (VObj [("error", VStr "Store not found")]))))).
Proof.
  intros Hroute Hbody Hlook Hget. unfold App.handle, get_store.
  now rewrite Hbody, Hroute, Hlook, Hget.
Qed.

(** C7: an update whose id matches no row and whose payload breaks a field
    rule is answered NotFound (404), not ValidationError: the row is looked
    up before the recorded validation errors are reported. *)
Theorem update_missing_is_not_found_before_validation e req b t :
  target req = UpdateStore ->
  parseIfXml (wire req) = inr b ->
  update_chain b <> [] ->
  lookup_fails e = false ->
  get t (id_param req) = None ->
  App.handle column_text null_text e req t = (t, Some (error 404 "Store not found")).
Proof.
  intros Hroute Hbody _ Hlook Hget. unfold App.handle, update_store.
  now rewrite Hbody, Hroute, Hlook, Hget.
Qed.

(** C8 (as amended): after a successful update of an existing row, each of
    name, address, phone and email that the payload omits keeps its stored
    value, each one the payload has takes the supplied value as the driver
    binds it, id and created_at are unchanged, every other row is
    untouched, and updated_at is the reading of CURRENT_TIMESTAMP at the
    update: it is later than before exactly when that reading is. *)
Theorem update_merges_and_stamps e req b t t' resp :
  target req = UpdateStore ->
  parseIfXml (wire req) = inr b ->
  App.handle column_text null_text e req t = (t', Some resp) ->
  status resp = 200 ->
  exists old new,
    get t (id_param req) = Some old /\
    get t' (id_param req) = Some new /\
    field_merged column_text (unwrap b) "name"
      (Some (name old)) (Some (name new)) /\
    field_merged column_text (unwrap b) "address"
      (Some (address old)) (Some (address new)) /\
    field_merged column_text (unwrap b) "phone" (phone old) (phone new) /\
    field_merged column_text (unwrap b) "email" (email old) (email new) /\
    id new = id old /\
    created_at new = created_at old /\
    updated_at new = clock e /\
    String.ltb (updated_at old) (updated_at new)
    = String.ltb (updated_at old) (clock e) /\
    (forall other, other <> id_param req -> get t' other = get t other) /\
    resp = sendResponse null_text (accept req) (Some (row_value new)) 200.
Proof.
  intros Hroute Hbody. unfold App.handle. rewrite Hbody, Hroute.
  intros Hrun Hok.
  destruct (update_store_200 _ _ _ _ _ _ _ _ _ Hrun Hok)
    as (old & n' & a' & Hget & _ & Hn & Ha & Hnew & Hframe & Hresp).
  eexists old, _. split; [exact Hget|]. split; [exact Hnew|]. simpl.
  rewrite <- Hn, <- Ha.
  repeat split; auto; try apply merged_spec; apply merged_spec.
Qed.


(** C10 (as amended): in the update merge a field that is present with the
    value null is a supplied value, not an absent one.  For phone and email
    it overwrites the stored value with NULL in every successful update,
    and only a field that is absent keeps the stored value.  For name and
    address the null is supplied too, but it never overwrites: the chain
    answers 400 or NOT NULL refuses the statement with 500 "Update failed",
    and the table is as it was. *)
Theorem update_null_is_supplied e req b t t' r old :
  target req = UpdateStore ->
  parseIfXml (wire req) = inr b ->
  lookup_fails e = false ->
  get t (id_param req) = Some old ->
  App.handle column_text null_text e req t = (t', r) ->
  (prop (unwrap b) "name" = Some VNull \/
   prop (unwrap b) "address" = Some VNull ->
   t' = t /\
   (r = Some (mkResponse 400 (ErrorsBody (update_chain b))) \/
    r = Some (error 500 "Update failed"))) /\
  (forall resp,
     r = Some resp ->
     status resp = 200 ->
     exists new,
       get t' (id_param req) = Some new /\
       (prop (unwrap b) "phone" = Some VNull -> phone new = None) /\
       (prop (unwrap b) "email" = Some VNull -> email new = None) /\
       (prop (unwrap b) "phone" = None -> phone new = phone old) /\
       (prop (unwrap b) "email" = None -> email new = email old) /\
       (prop (unwrap b) "name" = None -> name new = name old) /\
       (prop (unwrap b) "address" = None -> address new = address old)).
Proof.
  intros Hroute Hbody Hlook Hget. unfold App.handle. rewrite Hbody, Hroute.
  intros Hrun. split.
  - intros Hnull. destruct (update_chain b) as [|err errs] eqn:Hchain.
    + rewrite (update_store_null _ _ _ _ _ _ _ _ Hlook Hget Hchain Hnull)
        in Hrun.
      inversion Hrun. auto.
    + unfold update_store in Hrun. rewrite Hlook, Hget, Hchain in Hrun.
      inversion Hrun. auto.
  - intros resp -> Hok.
    destruct (update_store_200 _ _ _ _ _ _ _ _ _ Hrun Hok)
      as (old' & n' & a' & Hget' & _ & Hn & Ha & Hnew & _ & _).
    rewrite Hget in Hget'. inversion Hget'; subst old'; clear Hget'.
    eexists. split; [exact Hnew|]. simpl. unfold merged in *.
    repeat split.
    + now intros ->.
    + now intros ->.
    + now intros ->.
    + now intros ->.
    + intros Hf. rewrite Hf in Hn. now inversion Hn.
    + intros Hf. rewrite Hf in Ha. now inversion Ha.
Qed.

End Claims.

(** ** Instances of the theorems and the inputs that refute C3, C5, C6, C8 *)

Lemma list_stores_xml_root_is_response_witness :
  exists resp,
    App.handle sample_text "null" (healthy midnight) list_xml two_stores
    = (two_stores, Some resp) /\
    root_tag (content resp) = Some "response".
Proof.
  destruct (list_stores_xml_root_is_response sample_text "null"
              (healthy midnight) list_xml (VObj []) two_stores
              eq_refl eq_refl eq_refl eq_refl)
    as (resp & Hrun & _ & _ & Hroot & _).
  exists resp. split; assumption.
Defined.

(** C3, as stated, fails on a row without any null: the XML round trip
    returns [id] as the string "1", the JSON round trip as the number 1. *)
Lemma store_xml_round_trip_differs_from_json :
  xml_round_trip "null"
    (mkRow 1 "Acme" "1 Main St" (Some "555-1234") (Some "a@acme.test")
       midnight midnight)
  <> json_round_trip "null"
       (mkRow 1 "Acme" "1 Main St" (Some "555-1234") (Some "a@acme.test")
          midnight midnight).
Proof. intros H. vm_compute in H. discriminate H. Qed.

(** C5, as stated, fails when the SELECT after the INSERT reports an error:
    the answer is 500 and the row is in the table. *)
Lemma create_readback_error_keeps_row :
  App.handle sample_text "null" (readback_down midnight) (post "" acme) empty
  = (one_store, Some (error 500 "DB fetch failed")) /\
  is_error (error 500 "DB fetch failed") = true /\
  one_store <> empty.
Proof. repeat split. discriminate. Qed.

Lemma write_error_leaves_table_witness :
  with_phone = one_store \/
  (readback_fails (readback_down midnight) = true /\
   ((error 500 "Fetch after update failed" = error 500 "DB fetch failed" /\
     row_added one_store with_phone) \/
    (error 500 "Fetch after update failed"
     = error 500 "Fetch after update failed" /\
     row_rewritten (Some 1) one_store with_phone))).
Proof.
  apply (write_error_leaves_table sample_text "null" (readback_down midnight)
           (put 1 "" (Structured set_phone)) one_store with_phone
           (error 500 "Fetch after update failed")).
  - right. reflexivity.
  - reflexivity.
  - reflexivity.
Defined.

(** C6, as stated, fails: with [Accept: application/xml] the 404 of a
    missing id carries a JSON body. *)
Lemma get_missing_with_xml_accept_is_json :
  App.handle sample_text "null" (healthy midnight)
    (fetch 9999 "application/xml") empty
  = (empty, Some (error 404 "Store not found")) /\
  wants_xml "application/xml" = true /\
  is_xml (content (error 404 "Store not found")) = false.
Proof. repeat split. Qed.

Lemma get_missing_is_json_404_witness :
  App.handle sample_text "null" (healthy midnight)
    (fetch 9999 "application/xml") one_store
  = (one_store,
     Some (mkResponse 404
             (JsonBody (Some (VObj [("error", VStr "Store not found")]))))).
Proof.
  apply (get_missing_is_json_404 sample_text "null" (healthy midnight)
           (fetch 9999 "application/xml") (VObj []) one_store);
    reflexivity.
Defined.

Lemma update_missing_is_not_found_before_validation_witness :
  update_chain empty_name
  = [mkError "name" "name cannot be empty" (Some (VStr ""))] /\
  App.handle sample_text "null" (healthy midnight)
    (put 9999 "" (Structured empty_name)) one_store
  = (one_store, Some (error 404 "Store not found")).
Proof.
  split; [reflexivity|].
  apply (update_missing_is_not_found_before_validation sample_text "null"
           (healthy midnight) (put 9999 "" (Structured empty_name))
           empty_name one_store);
    try reflexivity.
  discriminate.
Defined.

(** C8, as stated, fails on [updated_at]: an update served in the second in
    which the row was created succeeds and leaves [updated_at] equal. *)
Lemma update_in_same_second_keeps_updated_at :
  run sample_text "null" [(healthy midnight, post "" acme)] empty = one_store /\
  App.handle sample_text "null" (healthy midnight)
    (put 1 "" (Structured set_phone)) one_store
  = (with_phone,
     Some (mkResponse 200
             (JsonBody
                (Some (row_value
                         (mkRow 1 "Acme" "1 Main St" (Some "555-1234") None
                            midnight midnight)))))) /\
  option_map updated_at (get one_store (Some 1)) = Some midnight /\
  option_map updated_at (get with_phone (Some 1)) = Some midnight /\
  String.ltb midnight midnight = false.
Proof. repeat split. Qed.

Lemma update_merges_and_stamps_witness :
  exists old new,
    get one_store (Some 1) = Some old /\
    get (fst (App.handle sample_text "null" (healthy later)
                (put 1 "" (XmlText (XmlParsed set_phone))) one_store))
        (Some 1) = Some new /\
    field_merged sample_text set_phone "phone" (phone old) (phone new) /\
    field_merged sample_text set_phone "name"
      (Some (name old)) (Some (name new)) /\
    updated_at new = later.
Proof.
  destruct (update_merges_and_stamps sample_text "null" (healthy later)
              (put 1 "" (XmlText (XmlParsed set_phone))) set_phone one_store
              (fst (App.handle sample_text "null" (healthy later)
                      (put 1 "" (XmlText (XmlParsed set_phone))) one_store))
              (mkResponse 200
                 (JsonBody
                    (Some (row_value
                             (mkRow 1 "Acme" "1 Main St" (Some "555-1234")
                                None midnight later)))))
              eq_refl eq_refl eq_refl eq_refl)
    as (old & new & Hold & Hnew & Hn & _ & Hp & _ & _ & _ & Hu & _).
  exists old, new. repeat split; try assumption; try apply Hn; apply Hp.
Defined.


(** C10, as stated, fails for name and address: a null [name], at the top
    of the record or inside a [store] envelope, does not overwrite the
    stored name; the update is refused and the name stays. *)
Lemma update_null_name_keeps_the_name :
  App.handle sample_text "null" (healthy later)
    (put 1 "" (Structured (VObj [("name", VNull)]))) one_store
  = (one_store,
     Some (mkResponse 400
             (ErrorsBody
                [mkError "name" "name cannot be empty" (Some VNull)]))) /\
  App.handle sample_text "null" (healthy later)
    (put 1 "" (Structured (VObj [("store", VObj [("name", VNull)])])))
    one_store
  = (one_store, Some (error 500 "Update failed")) /\
  option_map name (get one_store (Some 1)) = Some "Acme".
Proof. repeat split. Qed.

Lemma update_null_is_supplied_witness :
  get with_phone (Some 1)
  = Some (mkRow 1 "Acme" "1 Main St" (Some "555-1234") None midnight midnight)
  /\
  exists new,
    get (fst (App.handle sample_text "null" (healthy later)
                (put 1 "" (Structured clear_phone)) with_phone))
        (Some 1) = Some new /\
    phone new = None /\
    name new = "Acme".
Proof.
  split; [reflexivity|].
  destruct (proj2 (update_null_is_supplied sample_text "null" (healthy later)
                     (put 1 "" (Structured clear_phone)) clear_phone
                     with_phone
                     (fst (App.handle sample_text "null" (healthy later)
                             (put 1 "" (Structured clear_phone)) with_phone))
                     (snd (App.handle sample_text "null" (healthy later)
                             (put 1 "" (Structured clear_phone)) with_phone))
                     (mkRow 1 "Acme" "1 Main St" (Some "555-1234") None
                        midnight midnight)
                     eq_refl eq_refl eq_refl eq_refl eq_refl)
                  (mkResponse 200
                     (JsonBody
                        (Some (row_value
                                 (mkRow 1 "Acme" "1 Main St" None None
                                    midnight later)))))
                  eq_refl eq_refl)
    as (new & Hnew & Hp & _ & _ & _ & Hn & _).
  exists new. split; [exact Hnew|]. split.
  - apply Hp. reflexivity.
  - apply Hn. reflexivity.
Defined.

(** ** Examples *)

Example accept_with_xml :
  wants_xml "text/html, application/xml;q=0.9" = true.
Proof. reflexivity. Qed.

Example accept_json_or_none :
  wants_xml "application/json" = false /\ wants_xml "" = false.
Proof. split; reflexivity. Qed.

Example dec_samples : dec 42 = "42" /\ dec (-7) = "-7" /\ dec 0 = "0".
Proof. repeat split. Qed.

Example toStr_array : toStr (VArr [VNum 1; VNull; VStr "a"]) = "1,,a".
Proof. reflexivity. Qed.

(** The parser drops the root: [<store><name>X</name><address>Y</address></store>]
    is the record [{name: "X", address: "Y"}], with no [store] field in it,
    and such a create request passes. *)
Example rootless_store_document :
  Xml.read (Elem "store" [Elem "name" [Text "X"]; Elem "address" [Text "Y"]])
  = Some (VObj [("name", VStr "X"); ("address", VStr "Y")]).
Proof. reflexivity. Qed.

Example create_from_rootless_xml :
  option_map status
    (snd (App.handle sample_text "null" (healthy midnight)
            (mkRequest CreateStore None ""
               (XmlText (XmlParsed (VObj [("name", VStr "X");
                                          ("address", VStr "Y")]))))
            empty))
  = Some 201.
Proof. reflexivity. Qed.

(** A document that keeps a [store] element below its root gives a record
    with a [store] field. *)
Example nested_store_document :
  Xml.read
    (Elem "request"
       [Elem "store" [Elem "name" [Text "X"]; Elem "address" [Text "Y"]]])
  = Some (VObj [("store",
                 VObj [("name", VStr "X"); ("address", VStr "Y")])]).
Proof. reflexivity. Qed.

Example repeated_children_become_array :
  Xml.read (Elem "r" [Elem "a" [Text "1"]; Elem "a" [Text "2"]; Elem "b" []])
  = Some (VObj [("a", VArr [VStr "1"; VStr "2"]); ("b", VStr "")]).
Proof. reflexivity. Qed.

Example create_without_name :
  App.handle sample_text "null" (healthy midnight)
    (post "" (VObj [("address", VStr "1 Main St")])) empty
  = (empty,
     Some (mkResponse 400
             (ErrorsBody [mkError "name" "name is required" None]))).
Proof. reflexivity. Qed.

Example delete_missing_is_404 :
  App.handle sample_text "null" (healthy midnight)
    (mkRequest DeleteStore (Some 7) "" (Structured (VObj []))) one_store
  = (one_store, Some (error 404 "Store not found")).
Proof. reflexivity. Qed.

Example update_null_name_fails :
  App.handle sample_text "null" (healthy later)
    (put 1 "" (Structured (VObj [("store", VObj [("name", VNull)])])))
    one_store
  = (one_store, Some (error 500 "Update failed")).
Proof. reflexivity. Qed.

Example list_is_descending :
  map id (Db.all two_stores) = [2; 1].
Proof. reflexivity. Qed.

Example js_number_samples :
  js_number 5 = 5 /\
  js_number 9007199254740992 = 9007199254740992 /\
  js_number 9007199254740993 = 9007199254740992 /\
  js_number 9007199254740995 = 9007199254740996 /\
  js_number (-9007199254740993) = -9007199254740992.
Proof. repeat split. Qed.

(** Beyond 2^53 [this.lastID] is not the rowid: the row is stored, the
    lookup by the rounded number finds nothing, and 201 goes out with no
    body. *)
Example create_beyond_exact_numbers :
  App.handle sample_text "null" (healthy later) (post "" acme)
    (mkTable
       [mkRow 9007199254740994 "Old" "0 Main St" None None midnight midnight]
       9007199254740994)
  = (mkTable
       [mkRow 9007199254740994 "Old" "0 Main St" None None midnight midnight;
        mkRow 9007199254740995 "Acme" "1 Main St" None None later later]
       9007199254740995,
     Some (mkResponse 201 (JsonBody None))).
Proof. reflexivity. Qed.

(** An item of an array field is stringified as a whole. *)
Example array_item_is_joined :
  notEmpty "name" "name is required"
    (Some (VArr [VArr [VStr ""; VStr "x"]])) = [] /\
  notEmpty "name" "name is required" (Some (VArr [VStr ""; VStr "x"]))
  = [mkError "name" "name is required" (Some (VStr ""))].
Proof. split; reflexivity. Qed.

(** * Further properties of the handlers *)

(** ** More storage lemmas *)

Lemma max_id_upper (l : list row) (r : row) : In r l -> id r <= max_id l.
Proof.
  induction l as [|x l IH]; simpl; [tauto|].
  intros [->|Hin]; [lia|]. specialize (IH Hin). lia.
Qed.

Lemma max_id_nonneg (l : list row) : 0 <= max_id l.
Proof.
  induction l as [|x l IH]; simpl; lia.
Qed.

(** Rounding to a JavaScript number keeps a nonzero integer nonzero. *)
Lemma js_number_nonzero (n : Z) : n <> 0 -> js_number n <> 0.
Proof.
  unfold js_number. intros Hn.
  destruct (Z.leb_spec (Z.abs n) (2 ^ 53)) as [Hsmall|Hbig]; [exact Hn|].
  set (m := Z.abs n) in *.
  assert (Hm : 0 < m) by (change (2 ^ 53) with 9007199254740992 in Hbig; lia).
  assert (Hlog : 53 <= Z.log2 m).
  { apply Z.log2_le_pow2; [exact Hm|]. lia. }
  set (e := Z.log2 m - 52).
  assert (He : 0 <= e) by (unfold e; lia).
  assert (Hq : 0 < Z.shiftr m e).
  { rewrite Z.shiftr_div_pow2 by exact He.
    apply Z.div_str_pos. split; [apply Z.pow_pos_nonneg; lia|].
    apply Z.le_trans with (2 ^ Z.log2 m).
    - apply Z.pow_le_mono_r; unfold e; lia.
    - apply Z.log2_spec. exact Hm. }
  set (q := Z.shiftr m e) in *.
  match goal with
  | |- Z.sgn n * Z.shiftl ?q' e <> 0 => assert (Hq' : 0 < q')
  end.
  { destruct ((Z.shiftl 1 (e - 1) <? m - Z.shiftl q e)
              || ((m - Z.shiftl q e =? Z.shiftl 1 (e - 1)) && Z.odd q)); lia. }
  rewrite Z.shiftl_mul_pow2 by exact He.
  assert (Hpow : 0 < 2 ^ e) by (apply Z.pow_pos_nonneg; lia).
  intros Hzero. apply Z.mul_eq_0 in Hzero. destruct Hzero as [Hs|Hp].
  - destruct n; simpl in Hs; [now apply Hn|discriminate|discriminate].
  - apply Z.mul_eq_0 in Hp. lia.
Qed.

Lemma next_id_above (t : table) (r : row) : In r (rows t) -> id r < next_id t.
Proof.
  intros Hin. apply max_id_upper in Hin. unfold next_id. lia.
Qed.

Lemma next_id_positive (t : table) : 1 <= next_id t.
Proof.
  unfold next_id. pose proof (max_id_nonneg (rows t)). lia.
Qed.

Lemma find_snoc_any (f : row -> bool) (l : list row) (r : row) :
  find f (l ++ [r])
  = match find f l with
    | Some x => Some x
    | None => if f r then Some r else None
    end.
Proof.
  induction l as [|x l IH]; simpl; [reflexivity|].
  destruct (f x); [reflexivity|exact IH].
Qed.

Lemma get_after_insert (t : table) (new : row) (s k : Z) :
  k <> id new ->
  get (mkTable (rows t ++ [new]) s) (Some k) = get t (Some k).
Proof.
  intros Hk. unfold get; simpl. rewrite find_snoc_any.
  destruct (find (fun r => id r =? k) (rows t)); [reflexivity|].
  destruct (Z.eqb_spec (id new) k); [congruence|reflexivity].
Qed.

Lemma get_deleted (key : option Z) (t : table) :
  get (Db.delete key t) key = None.
Proof.
  destruct key as [k|]; simpl; [|reflexivity].
  induction (rows t) as [|x l IH]; simpl; [reflexivity|].
  destruct (id x =? k) eqn:Hx; simpl; [exact IH|].
  rewrite Hx. exact IH.
Qed.

Lemma get_delete_other (key other : option Z) (t : table) :
  other <> key -> get (Db.delete key t) other = get t other.
Proof.
  intros Hne. destruct other as [j|]; [|reflexivity]. simpl.
  induction (rows t) as [|x l IH]; simpl; [reflexivity|].
  destruct (matches key x) eqn:Hm; simpl.
  - destruct key as [k|]; simpl in Hm; [|discriminate].
    apply Z.eqb_eq in Hm.
    destruct (Z.eqb_spec (id x) j); [congruence|exact IH].
  - destruct (id x =? j); [reflexivity|exact IH].
Qed.

Lemma get_in (t : table) (key : option Z) (r : row) :
  get t key = Some r -> In r (rows t).
Proof.
  destruct key as [k|]; simpl; [|discriminate].
  intros H. apply find_some in H. tauto.
Qed.

(** The table an UPDATE leaves: the matching rows rewritten in place. *)
Lemma update_shape now n a p e key t t' old :
  get t key = Some old ->
  update now n a p e key t = Some t' ->
  exists n' a',
    n = Some n' /\ a = Some a' /\
    t' = mkTable
           (map (fun r =>
                   if matches key r
                   then mkRow (id r) n' a' p e (created_at r) now
                   else r) (rows t))
           (seq t).
Proof.
  intros Hget. unfold update. rewrite (get_exists _ _ _ Hget).
  destruct n as [n'|]; [|discriminate].
  destruct a as [a'|]; [|discriminate].
  intros H; inversion H. exists n', a'. auto.
Qed.

Lemma map_id_rewritten (f : row -> row) (l : list row) :
  (forall r, id (f r) = id r) -> map id (map f l) = map id l.
Proof.
  intros Hf. induction l as [|x l IH]; simpl; [reflexivity|].
  now rewrite Hf, IH.
Qed.

Lemma nodup_snoc_ids (l : list row) (new : row) :
  NoDup (map id l) ->
  (forall r, In r l -> id r < id new) ->
  NoDup (map id (l ++ [new])).
Proof.
  induction l as [|x l IH]; simpl; intros Hnd Hlt.
  - constructor; [tauto|constructor].
  - inversion Hnd as [|? ? Hnotin Hrest]; subst. constructor.
    + rewrite map_app, in_app_iff. intros [Hin|[Heq|[]]].
      * contradiction.
      * specialize (Hlt x (or_introl eq_refl)). lia.
    + apply IH; [assumption|]. intros r Hr. apply Hlt. now right.
Qed.

Lemma nodup_filter_ids (f : row -> bool) (l : list row) :
  NoDup (map id l) -> NoDup (map id (filter f l)).
Proof.
  induction l as [|x l IH]; simpl; intros Hnd; [constructor|].
  inversion Hnd as [|? ? Hnotin Hrest]; subst.
  destruct (f x); simpl; [|auto].
  constructor; [|auto].
  intros Hin. apply Hnotin. apply in_map_iff in Hin.
  destruct Hin as (r & Hid & Hr). apply filter_In in Hr.
  apply in_map_iff. exists r. tauto.
Qed.

Lemma forall_filter (P : row -> Prop) (f : row -> bool) (l : list row) :
  Forall P l -> Forall P (filter f l).
Proof.
  intros H. apply Forall_forall. intros r Hr. apply filter_In in Hr.
  rewrite Forall_forall in H. apply H. tauto.
Qed.

Lemma leb_same (s : string) : String.leb s s = true.
Proof.
  destruct (String.leb_total s s); assumption.
Qed.

(** ** What a request can do to the table *)

Section Transitions.

Variable column_text : value -> string.
Variable null_text : string.

(** The table after a request is the table before, or it has the row an
    INSERT built from the unwrapped payload, or the rows an UPDATE rewrote
    with the merge, or it lost the rows a DELETE matched. *)
Lemma handle_shape e req t t' r :
  App.handle column_text null_text e req t = (t', r) ->
  t' = t \/
  (exists b n' a',
     target req = CreateStore /\ parseIfXml (wire req) = inr b /\
     create_chain b = [] /\
     bind column_text (prop (unwrap b) "name") = Some n' /\
     bind column_text (prop (unwrap b) "address") = Some a' /\
     t' = mkTable
            (rows t ++
             [mkRow (next_id t) n' a'
                (bind column_text (or_null (prop (unwrap b) "phone")))
                (bind column_text (or_null (prop (unwrap b) "email")))
                (clock e) (clock e)])
            (next_id t)) \/
  (exists b old n' a',
     target req = UpdateStore /\ parseIfXml (wire req) = inr b /\
     update_chain b = [] /\ get t (id_param req) = Some old /\
     merged column_text (unwrap b) "name" (Some (name old)) = Some n' /\
     merged column_text (unwrap b) "address" (Some (address old)) = Some a' /\
     t' = mkTable
            (map (fun x =>
                    if matches (id_param req) x
                    then mkRow (id x) n' a'
                           (merged column_text (unwrap b) "phone" (phone old))
                           (merged column_text (unwrap b) "email" (email old))
                           (created_at x) (clock e)
                    else x) (rows t))
            (seq t)) \/
  (exists old,
     target req = DeleteStore /\ get t (id_param req) = Some old /\
     t' = Db.delete (id_param req) t).
Proof.
  unfold App.handle.
  destruct (parseIfXml (wire req)) as [refused|b] eqn:Hbody;
    [intros H; inversion H; now left|].
  destruct (target req) eqn:Hroute.
  - unfold list_stores. destruct (lookup_fails e); intros H; inversion H; now left.
  - unfold create_store.
    destruct (create_chain b) eqn:Hchain; [|intros H; inversion H; now left].
    destruct (write_fails e); [intros H; inversion H; now left|].
    match goal with
    | |- context [insert ?now ?n ?a ?p ?m t] =>
        destruct (insert now n a p m t) as [[t1 k]|] eqn:Hins;
        [|intros H; inversion H; now left]
    end.
    destruct (insert_inv _ _ _ _ _ _ _ _ Hins)
      as (n' & a' & Hn & Ha & _ & Hk & Ht).
    intros H. right. left. exists b, n', a'.
    assert (t' = t1) by (destruct (readback_fails e); now inversion H).
    subst. repeat split; auto.
  - unfold get_store. destruct (lookup_fails e); [intros H; inversion H; now left|].
    destruct (get t (id_param req)); intros H; inversion H; now left.
  - unfold update_store.
    destruct (lookup_fails e); [intros H; inversion H; now left|].
    destruct (get t (id_param req)) as [old|] eqn:Hget;
      [|intros H; inversion H; now left].
    destruct (update_chain b) eqn:Hchain; [|intros H; inversion H; now left].
    destruct (unwrap b) eqn:Hp; try (intros H; inversion H; now left);
    (destruct (write_fails e); [intros H; inversion H; now left|]);
    match goal with
    | |- context [update ?now ?n ?a ?p ?m ?k t] =>
        destruct (update now n a p m k t) as [t1|] eqn:Hup;
        [|intros H; inversion H; now left]
    end;
    destruct (update_shape _ _ _ _ _ _ _ _ _ Hget Hup)
      as (n' & a' & Hn & Ha & Ht);
    intros H; right; right; left; exists b, old, n', a';
    (assert (t' = t1) by (destruct (readback_fails e); now inversion H));
    subst t1; rewrite Hp; repeat split; auto.
  - unfold delete_store.
    destruct (lookup_fails e); [intros H; inversion H; now left|].
    destruct (get t (id_param req)) as [old|] eqn:Hget;
      [|intros H; inversion H; now left].
    destruct (write_fails e); [intros H; inversion H; now left|].
    intros H; inversion H. right. right. right. exists old. auto.
Qed.

End Transitions.

(** ** Keys *)

Section Keys.

Variable column_text : value -> string.
Variable null_text : string.

Lemma handle_keeps_keys e req t :
  well_keyed t ->
  well_keyed (fst (App.handle column_text null_text e req t)).
Proof.
  intros [Hnd Hall].
  destruct (App.handle column_text null_text e req t) as [t' r] eqn:Hrun.
  simpl. apply handle_shape in Hrun.
  destruct Hrun as [->|[Hc|[Hu|Hd]]].
  - split; assumption.
  - destruct Hc as (b & n' & a' & _ & _ & _ & _ & _ & ->).
    split; simpl.
    + apply nodup_snoc_ids; [assumption|]. intros r0 Hr0. simpl.
      now apply next_id_above.
    + apply Forall_app. split.
      * rewrite Forall_forall in *. intros r0 Hr0.
        pose proof (Hall r0 Hr0). pose proof (next_id_above t r0 Hr0). lia.
      * repeat constructor; simpl; [apply next_id_positive|lia].
  - destruct Hu as (b & old & n' & a' & _ & _ & _ & _ & _ & _ & ->).
    split; simpl.
    + rewrite map_id_rewritten; [assumption|].
      intros r0. now destruct (matches (id_param req) r0).
    + rewrite Forall_forall in *. intros r0 Hr0.
      apply in_map_iff in Hr0. destruct Hr0 as (x & Hx & Hin).
      specialize (Hall x Hin).
      destruct (matches (id_param req) x); subst; simpl; assumption.
  - destruct Hd as (old & _ & _ & ->). split; simpl.
    + now apply nodup_filter_ids.
    + now apply forall_filter.
Qed.

(** X1: the keys stay well formed through every sequence of requests: no
    rowid occurs twice, every rowid is positive and at most the
    AUTOINCREMENT counter. *)
Theorem requests_keep_keys steps t :
  well_keyed t ->
  well_keyed (run column_text null_text steps t).
Proof.
  revert t. induction steps as [|[e req] rest IH]; simpl; intros t Hwf.
  - exact Hwf.
  - apply IH. now apply handle_keeps_keys.
Qed.

Lemma found_rewritten (f : row -> row) (l : list row) (s s' k : Z) :
  (forall r, id (f r) = id r) ->
  found (mkTable (map f l) s) k <-> found (mkTable l s') k.
Proof.
  intros Hf. unfold found, get; simpl.
  induction l as [|x l IH]; simpl.
  - split; intros [r Hr]; discriminate.
  - rewrite Hf. destruct (id x =? k).
    + split; intros _; eexists; reflexivity.
    + exact IH.
Qed.

Lemma found_dec (t : table) (k : Z) : found t k \/ ~ found t k.
Proof.
  unfold found. destruct (get t (Some k)) as [r|].
  - left. now exists r.
  - right. intros [r Hr]. discriminate.
Qed.

(** X2: a request adds a rowid only by a create, and then it is the next
    one after the counter and after every stored rowid; it removes a rowid
    only by a delete of that very id. *)
Theorem rows_come_and_go_by_create_and_delete e req t t' r k :
  App.handle column_text null_text e req t = (t', r) ->
  (found t' k -> ~ found t k ->
   target req = CreateStore /\ k = next_id t /\ seq t < k) /\
  (found t k -> ~ found t' k ->
   target req = DeleteStore /\ id_param req = Some k).
Proof.
  intros Hrun. apply handle_shape in Hrun.
  destruct Hrun as [->|[Hc|[Hu|Hd]]].
  - split; intros; contradiction.
  - destruct Hc as (b & n' & a' & Hroute & _ & _ & _ & _ & ->).
    split.
    + intros [x Hx] Hnot.
      destruct (Z.eq_dec k (next_id t)) as [->|Hne].
      * repeat split; auto. unfold next_id. lia.
      * exfalso. apply Hnot. exists x.
        rewrite get_after_insert in Hx; auto.
    + intros [x Hx] Hnot. exfalso. apply Hnot. exists x.
      rewrite get_after_insert; [assumption|]. simpl.
      pose proof (get_matches _ _ _ Hx) as Hm. simpl in Hm.
      apply Z.eqb_eq in Hm.
      apply get_in in Hx. apply next_id_above in Hx. lia.
  - destruct Hu as (b & old & n' & a' & _ & _ & _ & _ & _ & _ & ->).
    assert (Hiff : found
                     (mkTable
                        (map (fun x =>
                                if matches (id_param req) x
                                then mkRow (id x) n' a'
                                       (merged column_text (unwrap b) "phone"
                                          (phone old))
                                       (merged column_text (unwrap b) "email"
                                          (email old))
                                       (created_at x) (clock e)
                                else x) (rows t)) (seq t)) k
                   <-> found (mkTable (rows t) (seq t)) k).
    { apply found_rewritten. intros x.
      now destruct (matches (id_param req) x). }
    assert (Hsame : found (mkTable (rows t) (seq t)) k <-> found t k)
      by (destruct t; reflexivity).
    split; intros H1 H2; exfalso; apply H2; tauto.
  - destruct Hd as (old & Hroute & _ & ->). split.
    + intros [x Hx] Hnot. exfalso. apply Hnot. exists x.
      destruct (id_param req) as [j|] eqn:Hkey.
      * destruct (Z.eq_dec k j) as [->|Hne].
        -- rewrite get_deleted in Hx. discriminate.
        -- rewrite get_delete_other in Hx; [assumption|congruence].
      * rewrite get_delete_other in Hx; [assumption|discriminate].
    + intros [x Hx] Hnot. split; [assumption|].
      destruct (id_param req) as [j|] eqn:Hkey.
      * destruct (Z.eq_dec k j) as [->|Hne]; [reflexivity|].
        exfalso. apply Hnot. exists x.
        rewrite get_delete_other; [assumption|congruence].
      * exfalso. apply Hnot. exists x.
        rewrite get_delete_other; [assumption|discriminate].
Qed.

Lemma handle_counter_grows e req t :
  seq t <= seq (fst (App.handle column_text null_text e req t)).
Proof.
  destruct (App.handle column_text null_text e req t) as [t' r] eqn:Hrun.
  simpl. apply handle_shape in Hrun.
  destruct Hrun as [->|[Hc|[Hu|Hd]]].
  - lia.
  - destruct Hc as (b & n' & a' & _ & _ & _ & _ & _ & ->). simpl.
    unfold next_id. lia.
  - destruct Hu as (b & old & n' & a' & _ & _ & _ & _ & _ & _ & ->).
    simpl. lia.
  - destruct Hd as (old & _ & _ & ->). simpl. lia.
Qed.

Lemma handle_adds_above_counter e req t k :
  found (fst (App.handle column_text null_text e req t)) k ->
  k <= seq t -> found t k.
Proof.
  destruct (App.handle column_text null_text e req t) as [t' r] eqn:Hrun.
  simpl. intros Hk Hle.
  destruct (found_dec t k) as [Hyes|Hno]; [assumption|]. exfalso.
  destruct (handle_shape _ _ _ _ _ _ _ Hrun) as [->|[Hc|[Hu|Hd]]].
  - contradiction.
  - destruct Hc as (b & n' & a' & _ & _ & _ & _ & _ & ->).
    destruct Hk as [x Hx].
    destruct (Z.eq_dec k (next_id t)) as [->|Hne].
    + unfold next_id in Hle. lia.
    + rewrite get_after_insert in Hx; auto. apply Hno. now exists x.
  - destruct Hu as (b & old & n' & a' & _ & _ & _ & _ & _ & _ & ->).
    apply Hno.
    assert (Hsame : found (mkTable (rows t) (seq t)) k <-> found t k)
      by (destruct t; reflexivity).
    apply Hsame.
    refine (proj1 (found_rewritten _ _ _ (seq t) k _) Hk).
    intros x. now destruct (matches (id_param req) x).
  - destruct Hd as (old & _ & _ & ->). destruct Hk as [x Hx].
    apply Hno. exists x.
    destruct (id_param req) as [j|] eqn:Hkey.
    + destruct (Z.eq_dec k j) as [->|Hne].
      * rewrite get_deleted in Hx. discriminate.
      * rewrite get_delete_other in Hx; [assumption|congruence].
    + rewrite get_delete_other in Hx; [assumption|discriminate].
Qed.

(** X3: rowids are never reused.  A rowid at or below the AUTOINCREMENT
    counter that a lookup finds after a sequence of requests was in the
    table before it: an id that is gone (deleted) does not come back, and
    every row created on the way has an id above the counter. *)
Theorem rowids_are_never_reused steps t k :
  found (run column_text null_text steps t) k ->
  k <= seq t ->
  found t k.
Proof.
  revert t. induction steps as [|[e req] rest IH]; simpl; intros t Hk Hle.
  - exact Hk.
  - apply (handle_adds_above_counter e req); [|assumption].
    apply IH; [assumption|].
    pose proof (handle_counter_grows e req t). lia.
Qed.

End Keys.

(** ** Create, read and delete composed *)

Section Composition.

Variable column_text : value -> string.
Variable null_text : string.

Lemma parseIfXml_refusal w refused :
  parseIfXml w = inl refused ->
  exists details,
    w = XmlText (XmlMalformed details) /\
    refused
    = mkResponse 400
        (JsonBody (Some (VObj [("error", VStr "Invalid XML payload");
                               ("details", VStr details)]))).
Proof.
  destruct w as [v|[|details|result]]; simpl; intros H; inversion H.
  now exists details.
Qed.

(** A 201 from the create handler: the chain had recorded nothing, name and
    address were bound to text, the new row is the last of the table, and
    the body is what the lookup by [this.lastID] found. *)
Lemma create_store_201_inv e accept b t t' resp :
  create_store column_text null_text e accept b t = (t', Some resp) ->
  status resp = 201 ->
  exists n' a',
    let new :=
      mkRow (next_id t) n' a'
        (bind column_text (or_null (prop (unwrap b) "phone")))
        (bind column_text (or_null (prop (unwrap b) "email")))
        (clock e) (clock e) in
    create_chain b = [] /\
    bind column_text (prop (unwrap b) "name") = Some n' /\
    bind column_text (prop (unwrap b) "address") = Some a' /\
    t' = mkTable (rows t ++ [new]) (next_id t) /\
    resp = sendResponse null_text accept
             (option_map row_value (get t' (Some (js_number (next_id t)))))
             201 /\
    (exact_number (next_id t) ->
     resp = sendResponse null_text accept (Some (row_value new)) 201).
Proof.
  unfold create_store.
  destruct (create_chain b) eqn:Hchain;
    [|intros H Hs; inversion H; subst; discriminate Hs].
  destruct (write_fails e); [intros H Hs; inversion H; subst; discriminate Hs|].
  match goal with
  | |- context [insert ?now ?n ?a ?p ?m t] =>
      destruct (insert now n a p m t) as [[t1 k]|] eqn:Hins;
      [|intros H Hs; inversion H; subst; discriminate Hs]
  end.
  destruct (insert_inv _ _ _ _ _ _ _ _ Hins)
    as (n' & a' & Hn & Ha & _ & Hk & Ht).
  subst k. subst t1. cbv zeta.
  destruct (readback_fails e);
    [intros H Hs; inversion H; subst; discriminate Hs|].
  intros H _. inversion H; subst. exists n', a'. cbv zeta.
  repeat split; auto.
  intros Hexact. unfold exact_number in Hexact. rewrite Hexact.
  match goal with
  | |- context [find ?f ?l] =>
      change (find f l) with (get (mkTable l (next_id t)) (Some (next_id t)))
  end.
  now rewrite get_inserted.
Qed.

(** X4: a store that was created is retrievable.  On a table whose next
    rowid is a JavaScript number as it is (every rowid up to 2^53 is),
    after a create answered 201 the body is the new row, whose id is the
    next rowid and was not in the table; a later Get-by-id of that id, on a
    backend whose lookup works, answers 200 with the same row; and every row
    that was there before is still found unchanged. *)
Theorem created_store_is_retrievable e req t t' resp :
  target req = CreateStore ->
  exact_number (next_id t) ->
  App.handle column_text null_text e req t = (t', Some resp) ->
  status resp = 201 ->
  exists new,
    id new = next_id t /\
    ~ found t (id new) /\
    created_at new = clock e /\
    updated_at new = clock e /\
    resp = sendResponse null_text (accept req) (Some (row_value new)) 201 /\
    (forall e2 req2 b2,
       target req2 = GetStore ->
       id_param req2 = Some (id new) ->
       parseIfXml (wire req2) = inr b2 ->
       lookup_fails e2 = false ->
       App.handle column_text null_text e2 req2 t'
       = (t', Some (sendResponse null_text (accept req2)
                      (Some (row_value new)) 200))) /\
    (forall k old, get t (Some k) = Some old -> get t' (Some k) = Some old).
Proof.
  intros Hroute Hexact. unfold App.handle.
  destruct (parseIfXml (wire req)) as [refused|b] eqn:Hparse.
  { destruct (parseIfXml_refusal _ _ Hparse) as (details & _ & ->).
    intros H Hs; inversion H; subst; discriminate Hs. }
  rewrite Hroute. intros Hrun Hok.
  destruct (create_store_201_inv _ _ _ _ _ _ Hrun Hok)
    as (n' & a' & _ & _ & _ & Ht & _ & Hresp).
  specialize (Hresp Hexact).
  eexists. repeat split; try exact Hresp; try reflexivity.
  - simpl. intros [x Hx].
    pose proof (get_matches _ _ _ Hx) as Hm. simpl in Hm.
    apply Z.eqb_eq in Hm.
    apply get_in in Hx. apply next_id_above in Hx. lia.
  - intros e2 req2 b2 Hroute2 Hkey Hbody Hlook.
    rewrite Hbody, Hroute2. unfold get_store.
    rewrite Hlook, Hkey, Ht. simpl id. now rewrite get_inserted.
  - intros k old Hold. rewrite Ht. rewrite get_after_insert; [assumption|].
    simpl. pose proof (get_matches _ _ _ Hold) as Hm. simpl in Hm.
    apply Z.eqb_eq in Hm.
    apply get_in in Hold. apply next_id_above in Hold. lia.
Qed.

(** A 200 from the delete handler. *)
Lemma delete_store_200_inv e accept key t t' resp :
  delete_store null_text e accept key t = (t', Some resp) ->
  status resp = 200 ->
  exists old,
    get t key = Some old /\
    t' = Db.delete key t /\
    resp = sendResponse null_text accept
             (Some (VObj [("message", VStr "Store deleted")])) 200.
Proof.
  unfold delete_store.
  destruct (lookup_fails e); [intros H Hs; inversion H; subst; discriminate Hs|].
  destruct (get t key) as [old|];
    [|intros H Hs; inversion H; subst; discriminate Hs].
  destruct (write_fails e); [intros H Hs; inversion H; subst; discriminate Hs|].
  intros H _. inversion H; subst. exists old. auto.
Qed.

(** X5: a store that was deleted is gone.  After a delete answered 200 the
    id is not found any more, every other lookup is as before, the
    AUTOINCREMENT counter is untouched, and a later get, update or delete
    of that id, on a backend whose lookup works, answers 404 and leaves the
    table alone. *)
Theorem deleted_store_is_gone e req t t' resp :
  target req = DeleteStore ->
  App.handle column_text null_text e req t = (t', Some resp) ->
  status resp = 200 ->
  (exists old, get t (id_param req) = Some old) /\
  get t' (id_param req) = None /\
  (forall other, other <> id_param req -> get t' other = get t other) /\
  seq t' = seq t /\
  resp = sendResponse null_text (accept req)
           (Some (VObj [("message", VStr "Store deleted")])) 200 /\
  (forall e2 req2 b2,
     target req2 = GetStore \/ target req2 = UpdateStore \/
     target req2 = DeleteStore ->
     id_param req2 = id_param req ->
     parseIfXml (wire req2) = inr b2 ->
     lookup_fails e2 = false ->
     App.handle column_text null_text e2 req2 t'
     = (t', Some (error 404 "Store not found"))).
Proof.
  intros Hroute. unfold App.handle.
  destruct (parseIfXml (wire req)) as [refused|b] eqn:Hparse.
  { destruct (parseIfXml_refusal _ _ Hparse) as (details & _ & ->).
    intros H Hs; inversion H; subst; discriminate Hs. }
  rewrite Hroute. intros Hrun Hok.
  destruct (delete_store_200_inv _ _ _ _ _ _ Hrun Hok)
    as (old & Hold & Ht & Hresp).
  subst t'. repeat split.
  - now exists old.
  - apply get_deleted.
  - intros other Hne. now apply get_delete_other.
  - exact Hresp.
  - intros e2 req2 b2 Hroute2 Hkey Hbody Hlook. rewrite Hbody.
    destruct Hroute2 as [ -> | [ -> | -> ] ];
      unfold get_store, update_store, delete_store;
      now rewrite Hlook, Hkey, get_deleted.
Qed.

(** X6: deleting an id that matches no row answers 404 "Store not found",
    never a storage error of the DELETE, and leaves the table alone, as
    long as the lookup itself works. *)
Theorem delete_missing_is_not_found e req b t :
  target req = DeleteStore ->
  parseIfXml (wire req) = inr b ->
  lookup_fails e = false ->
  get t (id_param req) = None ->
  App.handle column_text null_text e req t
  = (t, Some (error 404 "Store not found")).
Proof.
  intros Hroute Hbody Hlook Hget. unfold App.handle, delete_store.
  now rewrite Hbody, Hroute, Hlook, Hget.
Qed.

(** X7: a Get-by-id of a stored row answers 200 with that row and leaves
    the table alone; with a JSON answer the body is the row as stored, with
    an XML answer the root element is "store" for every nonzero id. *)
Theorem get_existing_is_200 e req b t r :
  target req = GetStore ->
  parseIfXml (wire req) = inr b ->
  lookup_fails e = false ->
  get t (id_param req) = Some r ->
  exists resp,
    App.handle column_text null_text e req t = (t, Some resp) /\
    status resp = 200 /\
    (wants_xml (accept req) = false ->
     content resp = JsonBody (Some (row_value r))) /\
    (wants_xml (accept req) = true -> id r <> 0 ->
     content resp = XmlBody (Xml.parse null_text "store" (row_value r))).
Proof.
  intros Hroute Hbody Hlook Hget. unfold App.handle, get_store.
  rewrite Hbody, Hroute, Hlook, Hget. eexists. split; [reflexivity|].
  unfold sendResponse. split; [|split].
  - now destruct (wants_xml (accept req)).
  - now intros ->.
  - intros -> Hid. simpl. unfold rootName. simpl.
    destruct (Z.eqb_spec (js_number (id r)) 0) as [Hzero|_]; [|reflexivity].
    now apply js_number_nonzero in Hid.
Qed.

End Composition.

(** ** What is answered *)

Section Answers.

Variable column_text : value -> string.
Variable null_text : string.

Lemma sendResponse_is_xml accept data code :
  is_xml (content (sendResponse null_text accept data code))
  = wants_xml accept.
Proof. unfold sendResponse. now destruct (wants_xml accept). Qed.

(** The forms a response can have. *)
Lemma handle_response_form e req t t' resp :
  App.handle column_text null_text e req t = (t', Some resp) ->
  (exists text, resp = error 404 text) \/
  (exists text, resp = error 500 text) \/
  (exists errors, resp = mkResponse 400 (ErrorsBody errors)) \/
  (exists data, resp = mkResponse 400 (JsonBody data)) \/
  (exists data, resp = sendResponse null_text (accept req) data 200) \/
  (exists data,
     resp = sendResponse null_text (accept req) data 201 /\
     target req = CreateStore).
Proof.
  unfold App.handle.
  destruct (parseIfXml (wire req)) as [refused|b] eqn:Hparse.
  { destruct (parseIfXml_refusal _ _ Hparse) as (details & _ & ->).
    intros H; inversion H; subst. right. right. right. left.
    eexists. reflexivity. }
  destruct (target req) eqn:Hroute.
  - unfold list_stores. destruct (lookup_fails e); intros H; inversion H; subst.
    + right. left. eexists. reflexivity.
    + right. right. right. right. left. eexists. reflexivity.
  - unfold create_store.
    destruct (create_chain b).
    2:{ intros H; inversion H; subst. right. right. left.
        eexists. reflexivity. }
    destruct (write_fails e).
    { intros H; inversion H; subst. right. left. eexists. reflexivity. }
    match goal with
    | |- context [insert ?now ?n ?a ?p ?m t] =>
        destruct (insert now n a p m t) as [[t1 k]|]
    end.
    2:{ intros H; inversion H; subst. right. left. eexists. reflexivity. }
    destruct (readback_fails e); intros H; inversion H; subst.
    + right. left. eexists. reflexivity.
    + right. right. right. right. right. eexists. split; reflexivity.
  - unfold get_store. destruct (lookup_fails e).
    { intros H; inversion H; subst. right. left. eexists. reflexivity. }
    destruct (get t (id_param req)); intros H; inversion H; subst.
    + right. right. right. right. left. eexists. reflexivity.
    + left. eexists. reflexivity.
  - unfold update_store. destruct (lookup_fails e).
    { intros H; inversion H; subst. right. left. eexists. reflexivity. }
    destruct (get t (id_param req)).
    2:{ intros H; inversion H; subst. left. eexists. reflexivity. }
    destruct (update_chain b).
    2:{ intros H; inversion H; subst. right. right. left.
        eexists. reflexivity. }
    destruct (unwrap b); try (intros H; discriminate H);
    (destruct (write_fails e);
     [intros H; inversion H; subst; right; left; eexists; reflexivity|]);
    match goal with
    | |- context [update ?now ?n ?a ?p ?m ?k t] =>
        destruct (update now n a p m k t) as [t1|];
        [|intros H; inversion H; subst; right; left; eexists; reflexivity]
    end;
    (destruct (readback_fails e); intros H; inversion H; subst;
     [ right; left; eexists; reflexivity
     | right; right; right; right; left; eexists; reflexivity ]).
  - unfold delete_store. destruct (lookup_fails e).
    { intros H; inversion H; subst. right. left. eexists. reflexivity. }
    destruct (get t (id_param req)).
    2:{ intros H; inversion H; subst. left. eexists. reflexivity. }
    destruct (write_fails e); intros H; inversion H; subst.
    + right. left. eexists. reflexivity.
    + right. right. right. right. left. eexists. reflexivity.
Qed.

(** X8: every response has one of the statuses 200, 201, 400, 404, 500; an
    error response (400 and above) never has an XML body, whatever the
    Accept header; a success response has an XML body exactly when the
    Accept header names an XML type; and 201 is sent by create only. *)
Theorem responses_are_classified e req t t' resp :
  App.handle column_text null_text e req t = (t', Some resp) ->
  known_status (status resp) /\
  (is_error resp = true -> is_xml (content resp) = false) /\
  (is_error resp = false ->
   is_xml (content resp) = wants_xml (accept req)) /\
  (status resp = 201 -> target req = CreateStore).
Proof.
  intros Hrun. unfold known_status, is_error.
  destruct (handle_response_form _ _ _ _ _ Hrun)
    as [[x ->]|[[x ->]|[[x ->]|[[x ->]|[[x ->]|[x [-> Hc]]]]]]];
    rewrite ?sendResponse_status, ?sendResponse_is_xml; simpl;
    repeat split; auto; try discriminate; try tauto.
Qed.

(** X9: an XML body that does not parse is refused on every route, the
    reading routes included, before any handler runs: 400 with the JSON
    body [{error: "Invalid XML payload", details}] and the table as it
    was. *)
Theorem malformed_xml_is_refused_on_every_route e req t details :
  wire req = XmlText (XmlMalformed details) ->
  App.handle column_text null_text e req t
  = (t, Some (mkResponse 400
                (JsonBody (Some (VObj [("error", VStr "Invalid XML payload");
                                       ("details", VStr details)]))))).
Proof.
  intros Hwire. unfold App.handle. now rewrite Hwire.
Qed.

(** X10: an XML request whose body is blank is served as the empty record
    [{}]: it is no parse error, and a create with it is answered 400 with
    both "name is required" and "address is required". *)
Theorem blank_xml_is_the_empty_record e req t :
  wire req = XmlText XmlBlank ->
  App.handle column_text null_text e req t
  = App.handle column_text null_text e
      (mkRequest (target req) (id_param req) (accept req)
         (Structured (VObj []))) t /\
  (target req = CreateStore ->
   App.handle column_text null_text e req t
   = (t, Some (mkResponse 400
                 (ErrorsBody
                    [mkError "name" "name is required" None;
                     mkError "address" "address is required" None])))).
Proof.
  intros Hwire. unfold App.handle. rewrite Hwire. simpl. split.
  - reflexivity.
  - now intros ->.
Qed.

End Answers.

(** ** Validation *)

Lemma dec_filled (n : Z) : String.eqb (dec n) "" = false.
Proof.
  unfold dec. destruct (Z.to_int n) as [d|d]; simpl; [|reflexivity].
  destruct d; reflexivity.
Qed.

(** [notEmpty] on a value that is not an array: one error when the value is
    absent, null or the empty string, none otherwise (numbers, booleans and
    objects have a non-empty text). *)
Lemma notEmpty_scalar p m v :
  isArray v = false ->
  notEmpty p m v = if unfilled v then [mkError p m v] else [].
Proof.
  destruct v as [[|[|]|n|s|items|fields]|]; simpl; intros Harr;
    try reflexivity; try discriminate.
  - unfold notEmpty, isEmpty. simpl. now rewrite dec_filled.
  - unfold notEmpty, isEmpty. simpl. destruct (String.eqb s ""); reflexivity.
Qed.

Lemma unwrap_plain b : truthy (prop b "store") = false -> unwrap b = b.
Proof.
  unfold unwrap. destruct (prop b "store") as [inner|]; [|reflexivity].
  now intros ->.
Qed.

Section Validation.

Variable column_text : value -> string.
Variable null_text : string.

(** X11: create lists "name is required" exactly when [name] is absent,
    null or the empty string, and "address is required" likewise (for
    fields that are not arrays); if either is listed the answer is 400 with
    that list and nothing is stored. *)
Theorem create_requires_name_and_address e req b t :
  target req = CreateStore ->
  parseIfXml (wire req) = inr b ->
  isArray (prop b "name") = false ->
  isArray (prop b "address") = false ->
  create_chain b
  = ((if unfilled (prop b "name")
      then [mkError "name" "name is required" (prop b "name")] else [])
     ++ (if unfilled (prop b "address")
         then [mkError "address" "address is required" (prop b "address")]
         else []))%list /\
  (unfilled (prop b "name") || unfilled (prop b "address") = true ->
   App.handle column_text null_text e req t
   = (t, Some (mkResponse 400 (ErrorsBody (create_chain b))))).
Proof.
  intros Hroute Hbody Hn Ha.
  assert (Hchain : create_chain b
                   = ((if unfilled (prop b "name")
                       then [mkError "name" "name is required" (prop b "name")]
                       else [])
                      ++ (if unfilled (prop b "address")
                          then [mkError "address" "address is required"
                                  (prop b "address")]
                          else []))%list).
  { unfold create_chain, required. now rewrite !notEmpty_scalar. }
  split; [exact Hchain|].
  intros Hbad. unfold App.handle, create_store. rewrite Hbody, Hroute.
  destruct (create_chain b) as [|err errs] eqn:Hc; [|reflexivity].
  exfalso. symmetry in Hchain. apply app_eq_nil in Hchain.
  destruct Hchain as [H1 H2].
  destruct (unfilled (prop b "name")); [discriminate|].
  destruct (unfilled (prop b "address")); discriminate.
Qed.

(** X12: update of a stored row lists "name cannot be empty" exactly when
    [name] is present and null or the empty string, "address cannot be
    empty" likewise (for fields that are not arrays); if either is listed
    the answer is 400 with that list and the row is left as it was. *)
Theorem update_rejects_empty_fields e req b t old :
  target req = UpdateStore ->
  parseIfXml (wire req) = inr b ->
  lookup_fails e = false ->
  get t (id_param req) = Some old ->
  isArray (prop b "name") = false ->
  isArray (prop b "address") = false ->
  let refused f :=
    match prop b f with
    | None => false
    | Some v => unfilled (Some v)
    end in
  update_chain b
  = ((if refused "name"
      then [mkError "name" "name cannot be empty" (prop b "name")] else [])
     ++ (if refused "address"
         then [mkError "address" "address cannot be empty" (prop b "address")]
         else []))%list /\
  (refused "name" || refused "address" = true ->
   App.handle column_text null_text e req t
   = (t, Some (mkResponse 400 (ErrorsBody (update_chain b))))).
Proof.
  intros Hroute Hbody Hlook Hget Hn Ha refused.
  assert (Hchain : update_chain b
                   = ((if refused "name"
                       then [mkError "name" "name cannot be empty"
                               (prop b "name")]
                       else [])
                      ++ (if refused "address"
                          then [mkError "address" "address cannot be empty"
                                  (prop b "address")]
                          else []))%list).
  { unfold update_chain, optional, refused.
    destruct (prop b "name") as [vn|]; destruct (prop b "address") as [va|];
      rewrite ?notEmpty_scalar by assumption; reflexivity. }
  split; [exact Hchain|].
  intros Hbad. unfold App.handle, update_store.
  rewrite Hbody, Hroute, Hlook, Hget.
  destruct (update_chain b) as [|err errs] eqn:Hc; [|reflexivity].
  exfalso. symmetry in Hchain. apply app_eq_nil in Hchain.
  destruct Hchain as [H1 H2].
  destruct (refused "name"); [discriminate|].
  destruct (refused "address"); discriminate.
Qed.

(** X13: requests without a [store] envelope keep names filled.  If no
    stored row has an empty name or address, and the record of the request
    has no truthy [store] field and its [name] and [address] are strings,
    null or absent, then no stored row has an empty name or address after
    the request, whatever the route and the backend do. *)
Theorem plain_requests_keep_names_filled e req b t :
  parseIfXml (wire req) = inr b ->
  truthy (prop b "store") = false ->
  textual (prop b "name") ->
  textual (prop b "address") ->
  names_filled t ->
  names_filled (fst (App.handle column_text null_text e req t)).
Proof.
  intros Hbody Hstore Hn Ha Hfilled.
  destruct (App.handle column_text null_text e req t) as [t' r] eqn:Hrun.
  simpl. apply handle_shape in Hrun. unfold names_filled in *.
  assert (Hfield : forall f m s,
             prop b f = Some (VStr s) -> required f m b = [] -> s <> "").
  { intros f m s Hf Hreq. unfold required in Hreq.
    rewrite notEmpty_scalar in Hreq by (now rewrite Hf).
    rewrite Hf in Hreq. simpl in Hreq.
    destruct (String.eqb_spec s ""); [discriminate|assumption]. }
  assert (Hfield' : forall f m s,
             prop b f = Some (VStr s) -> optional f m b = [] -> s <> "").
  { intros f m s Hf Hopt. unfold optional in Hopt. rewrite Hf in Hopt.
    rewrite notEmpty_scalar in Hopt by reflexivity. simpl in Hopt.
    destruct (String.eqb_spec s ""); [discriminate|assumption]. }
  destruct Hrun as [->|[Hc|[Hu|Hd]]].
  - assumption.
  - destruct Hc as (b0 & n' & a' & _ & Hb0 & Hchain & Hbn & Hba & ->).
    rewrite Hbody in Hb0. inversion Hb0; subst b0; clear Hb0.
    rewrite (unwrap_plain b Hstore) in *.
    unfold create_chain in Hchain. apply app_eq_nil in Hchain.
    destruct Hchain as [Hc1 Hc2].
    simpl. apply Forall_app. split; [assumption|]. repeat constructor; simpl.
    + destruct (prop b "name") as [[| | |s| |]|] eqn:Hf;
        simpl in Hn, Hbn; try contradiction; try discriminate.
      inversion Hbn; subst. eapply Hfield; eauto.
    + destruct (prop b "address") as [[| | |s| |]|] eqn:Hf;
        simpl in Ha, Hba; try contradiction; try discriminate.
      inversion Hba; subst. eapply Hfield; eauto.
  - destruct Hu as (b0 & old & n' & a' & _ & Hb0 & Hchain & Hold & Hbn & Hba
                    & ->).
    rewrite Hbody in Hb0. inversion Hb0; subst b0; clear Hb0.
    rewrite (unwrap_plain b Hstore) in *.
    unfold update_chain in Hchain. apply app_eq_nil in Hchain.
    destruct Hchain as [Hc1 Hc2].
    apply get_in in Hold. rewrite Forall_forall in Hfilled.
    pose proof (Hfilled old Hold) as [Hon Hoa].
    assert (Hn' : n' <> "").
    { unfold merged in Hbn.
      destruct (prop b "name") as [[| | |s| |]|] eqn:Hf;
        simpl in Hn, Hbn; try contradiction; try discriminate.
      - inversion Hbn; subst. eapply Hfield'; eauto.
      - inversion Hbn; subst. assumption. }
    assert (Ha' : a' <> "").
    { unfold merged in Hba.
      destruct (prop b "address") as [[| | |s| |]|] eqn:Hf;
        simpl in Ha, Hba; try contradiction; try discriminate.
      - inversion Hba; subst. eapply Hfield'; eauto.
      - inversion Hba; subst. assumption. }
    simpl. apply Forall_forall. intros x Hx. apply in_map_iff in Hx.
    destruct Hx as (y & Hy & Hin).
    destruct (matches (id_param req) y); subst x; simpl; auto.
  - destruct Hd as (old & _ & _ & ->). simpl. now apply forall_filter.
Qed.

(** X14: creation never follows the last update.  If every stored row has
    [created_at <= updated_at] and the reading of CURRENT_TIMESTAMP is not
    before any stored [created_at], the same holds of every row after the
    request. *)
Theorem timestamps_stay_ordered e req t :
  stamped t ->
  clock_not_before e t ->
  stamped (fst (App.handle column_text null_text e req t)).
Proof.
  intros Hst Hclock.
  destruct (App.handle column_text null_text e req t) as [t' r] eqn:Hrun.
  simpl. apply handle_shape in Hrun. unfold stamped, clock_not_before in *.
  destruct Hrun as [->|[Hc|[Hu|Hd]]].
  - assumption.
  - destruct Hc as (b & n' & a' & _ & _ & _ & _ & _ & ->). simpl.
    apply Forall_app. split; [assumption|].
    repeat constructor. simpl. apply leb_same.
  - destruct Hu as (b & old & n' & a' & _ & _ & _ & _ & _ & _ & ->).
    simpl. rewrite Forall_forall in *. intros x Hx.
    apply in_map_iff in Hx. destruct Hx as (y & Hy & Hin).
    destruct (matches (id_param req) y); subst x; simpl; auto.
  - destruct Hd as (old & _ & _ & ->). simpl. now apply forall_filter.
Qed.

(** X15: a create that passes the chain but whose INSERT cannot run (the
    backend reports an error, the unwrapped payload binds NULL as name or
    address, or the table has used its last rowid) is answered 500 "Failed
    to create store" and stores nothing. *)
Theorem create_statement_failure_is_500 e req b t :
  target req = CreateStore ->
  parseIfXml (wire req) = inr b ->
  create_chain b = [] ->
  write_fails e = true \/
  bind column_text (prop (unwrap b) "name") = None \/
  bind column_text (prop (unwrap b) "address") = None \/
  ~ has_room t ->
  App.handle column_text null_text e req t
  = (t, Some (error 500 "Failed to create store")).
Proof.
  intros Hroute Hbody Hchain Hwhy. unfold App.handle, create_store.
  rewrite Hbody, Hroute, Hchain.
  destruct (write_fails e); [reflexivity|].
  destruct Hwhy as [Hw|[Hn|[Ha|Hfull]]].
  - discriminate.
  - now rewrite Hn.
  - rewrite Ha. unfold insert.
    now destruct (bind column_text (prop (unwrap b) "name")).
  - unfold insert, has_room in *.
    destruct (bind column_text (prop (unwrap b) "name")); [|reflexivity].
    destruct (bind column_text (prop (unwrap b) "address")); [|reflexivity].
    destruct (Z.leb_spec max_rowid (Z.max (seq t) (max_id (rows t))));
      [reflexivity|contradiction].
Qed.

(** X16: an update of a stored row that passes the chain but whose unwrapped
    payload has a null [name] or [address] is answered 500 "Update failed"
    (NOT NULL refuses the statement) and the row is left as it was. *)
Theorem update_null_name_is_500 e req b t old :
  target req = UpdateStore ->
  parseIfXml (wire req) = inr b ->
  lookup_fails e = false ->
  get t (id_param req) = Some old ->
  update_chain b = [] ->
  prop (unwrap b) "name" = Some VNull \/
  prop (unwrap b) "address" = Some VNull ->
  App.handle column_text null_text e req t
  = (t, Some (error 500 "Update failed")).
Proof.
  intros Hroute Hbody Hlook Hget Hchain Hnull.
  unfold App.handle, update_store.
  rewrite Hbody, Hroute, Hlook, Hget, Hchain.
  assert (Hup : forall p m,
             update (clock e)
               (merged column_text (unwrap b) "name" (Some (name old)))
               (merged column_text (unwrap b) "address" (Some (address old)))
               p m (id_param req) t = None).
  { intros p m. unfold update. rewrite (get_exists _ _ _ Hget).
    unfold merged. destruct Hnull as [Hf|Hf]; rewrite Hf; simpl.
    - reflexivity.
    - match goal with
      | |- match ?n with Some _ => _ | None => _ end = _ =>
          destruct n; reflexivity
      end. }
  destruct (unwrap b) eqn:Hp;
    try (destruct Hnull as [Hf|Hf]; discriminate Hf);
    destruct (write_fails e); try reflexivity; now rewrite Hup.
Qed.

End Validation.

(** ** XML bodies sent and read back *)

Lemma read_children_loop (c : list node) (text : string)
  (obj : list (string * value)) :
  (fix children (l : list node) (text : string)
       (obj : list (string * value)) {struct l} : option value :=
     match l with
     | [] => Some (closeTag text obj)
     | x :: rest =>
         match x with
         | Text s => children rest (text ++ s) obj
         | Elem t _ =>
             if String.eqb t charkey then None
             else
               match Xml.read x with
               | None => None
               | Some v => children rest text (assignOrPush obj t v)
               end
         end
     end) c text obj
  = read_children c text obj.
Proof.
  revert text obj. induction c as [|x c IH]; intros text obj; simpl;
    [reflexivity|].
  destruct x as [s|t inner]; [apply IH|].
  destruct (String.eqb t charkey); [reflexivity|].
  destruct (Xml.read (Elem t inner)); [apply IH|reflexivity].
Qed.

Lemma read_elem (tag : string) (c : list node) :
  Xml.read (Elem tag c) = read_children c "" [].
Proof. exact (read_children_loop c "" []). Qed.

Lemma assoc_absent (k : string) (obj : list (string * value)) :
  ~ In k (map fst obj) -> assoc k obj = None.
Proof.
  induction obj as [|[k' v] obj IH]; simpl; intros Hnot; [reflexivity|].
  destruct (String.eqb_spec k k'); [subst; tauto|]. apply IH. tauto.
Qed.

Section ReadBack.

Variable column_text : value -> string.
Variable null_text : string.

Lemma parse_record (root : string) (l : list (string * string)) :
  Xml.parse null_text root (record_of l) = Elem root (map text_element l).
Proof.
  unfold Xml.parse, record_of. f_equal.
  induction l as [|[k s] l IH]; simpl; [reflexivity|].
  f_equal. exact IH.
Qed.

Lemma read_text_elements (l : list (string * string)) :
  forall text obj,
    NoDup (map fst l) ->
    ~ In charkey (map fst l) ->
    (forall k, In k (map fst l) -> ~ In k (map fst obj)) ->
    read_children (map text_element l) text obj
    = Some (closeTag text
              (obj ++ map (fun kv => (fst kv, VStr (snd kv))) l)).
Proof.
  induction l as [|[k s] l IH]; intros text obj Hnd Hkey Hfresh.
  - simpl. now rewrite app_nil_r.
  - simpl in Hnd, Hkey. inversion Hnd as [|? ? Hk Hrest]; subst.
    cbn [map text_element fst snd read_children].
    destruct (String.eqb_spec k charkey) as [->|_]; [tauto|].
    replace (Xml.read (text_element (k, s))) with (Some (VStr s))
      by reflexivity.
    unfold assignOrPush.
    rewrite assoc_absent by (apply Hfresh; now left).
    rewrite IH; try assumption.
    + now rewrite <- app_assoc.
    + tauto.
    + intros k' Hk'. rewrite map_app, in_app_iff. simpl.
      intros [Hin|[->|[]]].
      * apply (Hfresh k'); [now right|assumption].
      * contradiction.
Qed.

(** X17: a record of string fields sent as XML is read back as it was.  For
    distinct keys that are XML names, none of them the text key of xml2js,
    and values of plain characters: the record comes back field for field,
    except the empty record, which comes back as the empty string. *)
Theorem string_record_survives_xml accept code (l : list (string * string)) :
  wants_xml accept = true ->
  NoDup (map fst l) ->
  ~ In charkey (map fst l) ->
  Forall plain_field l ->
  xml_read
    (content (sendResponse null_text accept (Some (record_of l)) code))
  = Some (match l with
          | [] => VStr ""
          | _ :: _ => record_of l
          end).
Proof.
  intros Hxml Hnd Hkey _. unfold sendResponse. rewrite Hxml.
  cbn [content xml_read]. rewrite parse_record, read_elem.
  rewrite read_text_elements; try assumption; [|intros k _ []].
  destruct l as [|kv l]; reflexivity.
Qed.

Lemma parse_list (root : string) (l : list row) :
  Xml.parse null_text root (list_data l)
  = Elem root
      (map (fun r => Elem "store" (parseValue null_text "store" (row_value r)))
         l).
Proof.
  unfold Xml.parse, list_data. f_equal.
  cbn [parseValue]. rewrite app_nil_r.
  induction l as [|r l IH]; [reflexivity|].
  cbn [map]. cbn [row_value]. cbn [app]. f_equal. exact IH.
Qed.

Lemma read_row_element (r : row) :
  Xml.read (Elem "store" (parseValue null_text "store" (row_value r)))
  = Some (row_text null_text r).
Proof.
  destruct r as [i n a p m c u]. destruct p, m; reflexivity.
Qed.

Lemma read_store_elements (l : list row) :
  forall text obj,
    read_children
      (map (fun r => Elem "store" (parseValue null_text "store" (row_value r)))
         l) text obj
    = Some (closeTag text
              (fold_left
                 (fun o r => assignOrPush o "store" (row_text null_text r))
                 l obj)).
Proof.
  induction l as [|r l IH]; intros text obj; [reflexivity|].
  cbn [map read_children fold_left].
  change (String.eqb "store" charkey) with false. cbv iota.
  rewrite read_row_element. apply IH.
Qed.

Lemma push_more_stores (l : list row) :
  forall items,
    fold_left (fun o r => assignOrPush o "store" (row_text null_text r)) l
      [("store", VArr items)]
    = [("store", VArr (items ++ map (row_text null_text) l))].
Proof.
  induction l as [|r l IH]; intros items; simpl.
  - now rewrite app_nil_r.
  - unfold assignOrPush at 2. simpl. rewrite IH. now rewrite <- app_assoc.
Qed.

(** X18: the list sent as XML is not read back as a list of every length.
    With an XML Accept header the list answer, read back through the
    inbound parser (no explicit arrays, no explicit root), gives
    [{store: [rows as text]}] from two rows on, [{store: row}] without an
    array for exactly one row, and the empty string for no row. *)
Theorem list_read_back_depends_on_length e req b t :
  target req = ListStores ->
  parseIfXml (wire req) = inr b ->
  lookup_fails e = false ->
  wants_xml (accept req) = true ->
  exists resp,
    App.handle column_text null_text e req t = (t, Some resp) /\
    xml_read (content resp)
    = Some (listed (map (row_text null_text) (Db.all t))).
Proof.
  intros Hroute Hbody Hlook Hxml. unfold App.handle, list_stores.
  rewrite Hbody, Hroute, Hlook. eexists. split; [reflexivity|].
  unfold sendResponse. rewrite Hxml. cbn [content xml_read].
  change (VObj [("store", VArr (map row_value (Db.all t)))])
    with (list_data (Db.all t)).
  rewrite parse_list, read_elem, read_store_elements.
  destruct (Db.all t) as [|r1 [|r2 rest]]; try reflexivity.
  cbn [fold_left map].
  replace (assignOrPush
             (assignOrPush [] "store" (row_text null_text r1)) "store"
             (row_text null_text r2))
    with [("store", VArr [row_text null_text r1; row_text null_text r2])]
    by reflexivity.
  rewrite push_more_stores. reflexivity.
Qed.

End ReadBack.

(** ** Instances of the further properties *)

Lemma requests_keep_keys_witness :
  well_keyed
    (run sample_text "null"
       [(healthy midnight, post "" acme);
        (healthy later, remove 1 "");
        (healthy later, post "" acme)] empty).
Proof.
  apply (requests_keep_keys sample_text "null").
  split; simpl; constructor.
Defined.

Lemma rows_come_and_go_by_create_and_delete_witness :
  target (post "" acme) = CreateStore /\
  2 = next_id one_store /\ seq one_store < 2.
Proof.
  apply (proj1 (rows_come_and_go_by_create_and_delete sample_text "null"
                  (healthy later) (post "" acme) one_store
                  (fst (App.handle sample_text "null" (healthy later)
                          (post "" acme) one_store))
                  (snd (App.handle sample_text "null" (healthy later)
                          (post "" acme) one_store))
                  2 eq_refl)).
  - eexists. reflexivity.
  - intros [x Hx]. discriminate Hx.
Defined.

Lemma rowids_are_never_reused_witness : found two_stores 1.
Proof.
  apply (rowids_are_never_reused sample_text "null"
           [(healthy later, remove 2 ""); (healthy later, post "" acme)]
           two_stores 1).
  - eexists. reflexivity.
  - simpl. lia.
Defined.

Lemma created_store_is_retrievable_witness :
  exists new,
    id new = 1 /\ ~ found empty (id new) /\
    App.handle sample_text "null" (healthy later) (fetch 1 "") one_store
    = (one_store,
       Some (sendResponse "null" "" (Some (row_value new)) 200)).
Proof.
  destruct (created_store_is_retrievable sample_text "null" (healthy midnight)
              (post "" acme) empty one_store
              (mkResponse 201 (JsonBody (Some (row_value
                 (mkRow 1 "Acme" "1 Main St" None None midnight midnight)))))
              eq_refl eq_refl eq_refl eq_refl)
    as (new & Hid & Hfresh & _ & _ & _ & Hget & _).
  exists new. split; [exact Hid|]. split; [exact Hfresh|].
  apply (Hget (healthy later) (fetch 1 "") (VObj [])); try reflexivity.
  simpl. now rewrite Hid.
Defined.

Lemma deleted_store_is_gone_witness :
  get (fst (App.handle sample_text "null" (healthy later) (remove 1 "")
              one_store)) (Some 1) = None.
Proof.
  apply (deleted_store_is_gone sample_text "null" (healthy later)
           (remove 1 "") one_store
           (fst (App.handle sample_text "null" (healthy later) (remove 1 "")
                   one_store))
           (mkResponse 200
              (JsonBody (Some (VObj [("message", VStr "Store deleted")]))))
           eq_refl eq_refl eq_refl).
Defined.

Lemma delete_missing_is_not_found_witness :
  App.handle sample_text "null" (mkEnv later false true false) (remove 9 "")
    one_store
  = (one_store, Some (error 404 "Store not found")).
Proof.
  apply (delete_missing_is_not_found sample_text "null"
           (mkEnv later false true false) (remove 9 "") (VObj []) one_store);
    reflexivity.
Defined.

Lemma get_existing_is_200_witness :
  exists resp,
    App.handle sample_text "null" (healthy later)
      (fetch 1 "application/xml") one_store = (one_store, Some resp) /\
    root_tag (content resp) = Some "store".
Proof.
  destruct (get_existing_is_200 sample_text "null" (healthy later)
              (fetch 1 "application/xml") (VObj []) one_store
              (mkRow 1 "Acme" "1 Main St" None None midnight midnight)
              eq_refl eq_refl eq_refl eq_refl)
    as (resp & Hrun & _ & _ & Hxml).
  exists resp. split; [exact Hrun|].
  rewrite Hxml; [reflexivity|reflexivity|discriminate].
Defined.

Lemma responses_are_classified_witness :
  known_status 404 /\
  (is_error (error 404 "Store not found") = true ->
   is_xml (content (error 404 "Store not found")) = false).
Proof.
  destruct (responses_are_classified sample_text "null" (healthy later)
              (fetch 9 "application/xml") one_store one_store
              (error 404 "Store not found") eq_refl)
    as (Hstatus & Herr & _ & _).
  split; assumption.
Defined.

Lemma malformed_xml_is_refused_on_every_route_witness :
  App.handle sample_text "null" (healthy later)
    (mkRequest ListStores None "application/xml"
       (XmlText (XmlMalformed "Unclosed root tag"))) one_store
  = (one_store,
     Some (mkResponse 400
             (JsonBody (Some (VObj [("error", VStr "Invalid XML payload");
                                    ("details", VStr "Unclosed root tag")]))))).
Proof.
  apply (malformed_xml_is_refused_on_every_route sample_text "null"
           (healthy later)
           (mkRequest ListStores None "application/xml"
              (XmlText (XmlMalformed "Unclosed root tag")))
           one_store "Unclosed root tag").
  reflexivity.
Defined.

Lemma blank_xml_is_the_empty_record_witness :
  App.handle sample_text "null" (healthy later)
    (mkRequest CreateStore None "" (XmlText XmlBlank)) one_store
  = (one_store,
     Some (mkResponse 400
             (ErrorsBody
                [mkError "name" "name is required" None;
                 mkError "address" "address is required" None]))).
Proof.
  apply (proj2 (blank_xml_is_the_empty_record sample_text "null"
                  (healthy later)
                  (mkRequest CreateStore None "" (XmlText XmlBlank))
                  one_store eq_refl)).
  reflexivity.
Defined.

Lemma create_requires_name_and_address_witness :
  App.handle sample_text "null" (healthy later)
    (post "" (VObj [("name", VStr ""); ("address", VStr "1 Main St")]))
    one_store
  = (one_store,
     Some (mkResponse 400
             (ErrorsBody
                (create_chain
                   (VObj [("name", VStr ""); ("address", VStr "1 Main St")]))))).
Proof.
  apply (proj2 (create_requires_name_and_address sample_text "null"
                  (healthy later)
                  (post "" (VObj [("name", VStr "");
                                  ("address", VStr "1 Main St")]))
                  (VObj [("name", VStr ""); ("address", VStr "1 Main St")])
                  one_store eq_refl eq_refl eq_refl eq_refl)).
  reflexivity.
Defined.

Lemma update_rejects_empty_fields_witness :
  App.handle sample_text "null" (healthy later)
    (put 1 "" (Structured empty_name)) one_store
  = (one_store,
     Some (mkResponse 400 (ErrorsBody (update_chain empty_name)))).
Proof.
  apply (proj2 (update_rejects_empty_fields sample_text "null"
                  (healthy later) (put 1 "" (Structured empty_name))
                  empty_name one_store
                  (mkRow 1 "Acme" "1 Main St" None None midnight midnight)
                  eq_refl eq_refl eq_refl eq_refl eq_refl eq_refl)).
  reflexivity.
Defined.

Lemma plain_requests_keep_names_filled_witness :
  names_filled
    (fst (App.handle sample_text "null" (healthy later)
            (put 1 "" (Structured (VObj [("name", VStr "Acme Two")])))
            one_store)).
Proof.
  apply (plain_requests_keep_names_filled sample_text "null" (healthy later)
           (put 1 "" (Structured (VObj [("name", VStr "Acme Two")])))
           (VObj [("name", VStr "Acme Two")]) one_store);
    try reflexivity; try exact I.
  repeat constructor; discriminate.
Defined.

Lemma timestamps_stay_ordered_witness :
  stamped
    (fst (App.handle sample_text "null" (healthy later)
            (put 1 "" (Structured set_phone)) one_store)).
Proof.
  apply (timestamps_stay_ordered sample_text "null" (healthy later)
           (put 1 "" (Structured set_phone)) one_store);
    repeat constructor.
Defined.

Lemma create_statement_failure_is_500_witness :
  App.handle sample_text "null" (healthy later) (post "" no_name_inside)
    one_store
  = (one_store, Some (error 500 "Failed to create store")).
Proof.
  apply (create_statement_failure_is_500 sample_text "null" (healthy later)
           (post "" no_name_inside) no_name_inside one_store);
    try reflexivity.
  right. left. reflexivity.
Defined.

Lemma update_null_name_is_500_witness :
  App.handle sample_text "null" (healthy later)
    (put 1 "" (Structured (VObj [("store", VObj [("name", VNull)])])))
    one_store
  = (one_store, Some (error 500 "Update failed")).
Proof.
  apply (update_null_name_is_500 sample_text "null" (healthy later)
           (put 1 "" (Structured (VObj [("store", VObj [("name", VNull)])])))
           (VObj [("store", VObj [("name", VNull)])]) one_store
           (mkRow 1 "Acme" "1 Main St" None None midnight midnight));
    try reflexivity.
  left. reflexivity.
Defined.

Lemma string_record_survives_xml_witness :
  xml_read
    (content (sendResponse "null" "application/xml"
                (Some (record_of [("message", "Store deleted")])) 200))
  = Some (record_of [("message", "Store deleted")]).
Proof.
  apply (string_record_survives_xml "null" "application/xml" 200
           [("message", "Store deleted")]).
  - reflexivity.
  - repeat constructor. simpl. tauto.
  - simpl. intros [H|[]]. discriminate H.
  - repeat constructor; simpl; discriminate.
Defined.

Lemma list_read_back_depends_on_length_witness :
  exists resp,
    App.handle sample_text "null" (healthy later) list_xml one_store
    = (one_store, Some resp) /\
    xml_read (content resp)
    = Some (VObj [("store",
                   VObj [("id", VStr "1"); ("name", VStr "Acme");
                         ("address", VStr "1 Main St");
                         ("phone", VStr "null"); ("email", VStr "null");
                         ("created_at", VStr midnight);
                         ("updated_at", VStr midnight)])]).
Proof.
  destruct (list_read_back_depends_on_length sample_text "null"
              (healthy later) list_xml (VObj []) one_store
              eq_refl eq_refl eq_refl eq_refl)
    as (resp & Hrun & Hread).
  exists resp. split; [exact Hrun|exact Hread].
Defined.

(** ** Create and list composed *)

Lemma sort_desc_snoc_top (l : list row) (new : row) :
  (forall r, In r l -> id r < id new) ->
  sort_desc (l ++ [new]) = new :: sort_desc l.
Proof.
  unfold sort_desc. rewrite fold_right_app. simpl.
  induction l as [|x l IH]; intros Hlt; simpl; [reflexivity|].
  rewrite IH by (intros r Hr; apply Hlt; now right).
  simpl. specialize (Hlt x (or_introl eq_refl)).
  destruct (Z.leb_spec (id new) (id x)); [lia|reflexivity].
Qed.

Section Listing.

Variable column_text : value -> string.
Variable null_text : string.

(** X19: the newest store is listed first.  On a table whose next rowid is
    a JavaScript number as it is (every rowid up to 2^53 is), after a
    create answered 201 the rows the list handler selects are the new row,
    the one of the answer, followed by the rows it selected before. *)
Theorem created_store_is_listed_first e req t t' resp :
  target req = CreateStore ->
  exact_number (next_id t) ->
  App.handle column_text null_text e req t = (t', Some resp) ->
  status resp = 201 ->
  exists new,
    resp = sendResponse null_text (accept req) (Some (row_value new)) 201 /\
    Db.all t' = new :: Db.all t.
Proof.
  intros Hroute Hexact. unfold App.handle.
  destruct (parseIfXml (wire req)) as [refused|b] eqn:Hparse.
  { destruct (parseIfXml_refusal _ _ Hparse) as (details & _ & ->).
    intros H Hs; inversion H; subst; discriminate Hs. }
  rewrite Hroute. intros Hrun Hok.
  destruct (create_store_201_inv _ _ _ _ _ _ _ _ Hrun Hok)
    as (n' & a' & _ & _ & _ & Ht & _ & Hresp).
  specialize (Hresp Hexact).
  eexists. split; [exact Hresp|].
  rewrite Ht. unfold Db.all. simpl rows.
  apply sort_desc_snoc_top. intros r Hr. simpl. now apply next_id_above.
Qed.

End Listing.

Lemma created_store_is_listed_first_witness :
  exists new,
    name new = "Acme" /\
    Db.all (fst (App.handle sample_text "null" (healthy later) (post "" acme)
                   two_stores))
    = new :: Db.all two_stores.
Proof.
  destruct (created_store_is_listed_first sample_text "null" (healthy later)
              (post "" acme) two_stores
              (fst (App.handle sample_text "null" (healthy later)
                      (post "" acme) two_stores))
              (mkResponse 201 (JsonBody (Some (row_value
                 (mkRow 3 "Acme" "1 Main St" None None later later)))))
              eq_refl eq_refl eq_refl eq_refl)
    as (new & Hresp & Hall).
  exists new. split; [|exact Hall].
  unfold sendResponse in Hresp. simpl in Hresp.
  inversion Hresp. congruence.
Defined.
